(** * operation-tracker: the synchronisation layer of [github-api.js]

    A shallow embedding of class [GitHubAPI]: the document model, the merge
    of two documents, the base64-over-UTF-8 envelope, the credential
    obfuscation, and the save / load / flush operations over an explicit
    state (the instance fields, [localStorage], the objects the queue
    shares with its callers, the clock and a script of HTTP replies). *)

From Stdlib Require Import ZArith List String Ascii Lia Bool Permutation Sorted.
From stdpp Require Import base decidable functions list strings pretty.

Local Open Scope string_scope.
Local Open Scope Z_scope.
Import ListNotations.

(** ** Document model *)

Record User := mkUser {
  user_id : Z;
  user_name : string;
  user_role : string
}.

Record Task := mkTask {
  task_id : string;
  projectName : string;
  taskName : string;
  task_description : string;
  assignee : Z;
  planningStatus : string;
  actualStatus : string;
  priority : string;
  updatedAt : string
}.

Record ChangeRequest := mkRequest {
  request_id : string;
  request_taskId : option string;
  requestType : string;
  requestedBy : Z;
  request_description : string;
  request_status : string;
  reviewedBy : option Z
}.

(** [timestamp] is the time value, in milliseconds, that
    [new Date(entry.timestamp)] denotes; the application writes the field
    with [toISOString], so the value is a number. *)
Record HistoryEntry := mkEntry {
  entry_id : string;
  entry_taskId : string;
  entry_userId : Z;
  action : string;
  timestamp : Z;
  reason : string
}.

Record Document := mkDocument {
  version : string;
  lastUpdated : Z;
  users : list User;
  tasks : list Task;
  requests : list ChangeRequest;
  history : list HistoryEntry
}.

(** ** Merge of two documents *)

Module Merge.

Section ArraysById.
Context {Id A : Type} `{EqDecision Id}.
Variable idField : A -> Id.

(** [Map.prototype.set] on an insertion-ordered [Map]: an existing key
    keeps its place and takes the new value, a new key goes last. *)
Fixpoint map_set (k : Id) (v : A) (m : list (Id * A)) : list (Id * A) :=
  match m with
  | [] => [(k, v)]
  | (k', v') :: m' =>
      if decide (k' = k) then (k', v) :: m' else (k', v') :: map_set k v m'
  end.

(** [items.forEach(item => map.set(item[idField], item))] *)
Definition forEach_set (items : list A) (m : list (Id * A)) : list (Id * A) :=
  fold_left (fun acc item => map_set (idField item) item acc) items m.

(** [Array.from(map.values())] *)
Definition map_values (m : list (Id * A)) : list A := map snd m.

Definition mergeArrays (remote local : list A) : list A :=
  map_values (forEach_set local (forEach_set remote [])).

(** [Map.prototype.get] *)
Fixpoint map_get (k : Id) (m : list (Id * A)) : option A :=
  match m with
  | [] => None
  | (k', v') :: m' => if decide (k' = k) then Some v' else map_get k m'
  end.

(** [items.find(item => item[idField] === k)] *)
Fixpoint find_by_id (k : Id) (items : list A) : option A :=
  match items with
  | [] => None
  | x :: items' => if decide (idField x = k) then Some x else find_by_id k items'
  end.

(** Every value of the map sits under its own id. *)
Definition keyed (m : list (Id * A)) : Prop :=
  Forall (fun kv => idField (snd kv) = fst kv) m.
End ArraysById.

Section Sort.
Context {A : Type}.
Variable comparefn : A -> A -> Z.

(** [Array.prototype.sort(comparefn)] is a stable sort: [x], which stood
    before every element of the sorted rest, stays before the first
    element it does not have to follow. *)
Fixpoint sort_insert (x : A) (l : list A) : list A :=
  match l with
  | [] => [x]
  | y :: l' => if comparefn x y <=? 0 then x :: l else y :: sort_insert x l'
  end.

Definition sort (l : list A) : list A := fold_right sort_insert [] l.
End Sort.

(** [(a, b) => new Date(b.timestamp) - new Date(a.timestamp)] *)
Definition byTimestampDesc (a b : HistoryEntry) : Z := timestamp b - timestamp a.

(** Newest first. *)
Definition newerFirst (a b : HistoryEntry) : Prop := timestamp b <= timestamp a.

(** [mergeData(remote, local)]; [now] is the reading of the clock. *)
Definition mergeData (now : Z) (remote local : Document) : Document :=
  {| version := version local;
     lastUpdated := now;
     users := users remote;
     tasks := mergeArrays task_id (tasks remote) (tasks local);
     requests := mergeArrays request_id (requests remote) (requests local);
     history := sort byTimestampDesc (history remote ++ history local) |}.

End Merge.

(** ** The transport envelope: base64 over UTF-8 *)

Module Codec.

(** A JavaScript string is its sequence of UTF-16 code units. *)
Definition jsstring := list Z.

Definition isCodeUnit (c : Z) : bool := (0 <=? c) && (c <=? 65535).
Definition isLead (c : Z) : bool := (55296 <=? c) && (c <=? 56319).
Definition isTrail (c : Z) : bool := (56320 <=? c) && (c <=? 57343).

(** [String.prototype.isWellFormed]: no lone surrogate. *)
Fixpoint isWellFormed (s : jsstring) : bool :=
  match s with
  | [] => true
  | c :: s' =>
      if isLead c then
        match s' with
        | d :: s'' => isTrail d && isWellFormed s''
        | [] => false
        end
      else isCodeUnit c && negb (isTrail c) && isWellFormed s'
  end.

(** The code points of a string as [TextEncoder] reads them: a surrogate
    pair is one code point, a lone surrogate is replaced by U+FFFD. *)
Fixpoint toCodePoints (s : jsstring) : list Z :=
  match s with
  | [] => []
  | c :: s' =>
      if isLead c then
        match s' with
        | d :: s'' =>
            if isTrail d
            then (65536 + (c - 55296) * 1024 + (d - 56320)) :: toCodePoints s''
            else 65533 :: toCodePoints s'
        | [] => [65533]
        end
      else if isTrail c then 65533 :: toCodePoints s'
      else c :: toCodePoints s'
  end.

(** The UTF-16 code units of one code point. *)
Definition fromCodePoint (cp : Z) : jsstring :=
  if cp <? 65536 then [cp]
  else [55296 + (cp - 65536) / 1024; 56320 + (cp - 65536) mod 1024].

Definition fromCodePoints (cps : list Z) : jsstring :=
  concat (map fromCodePoint cps).

(** The UTF-8 bytes of one code point (the encoder of the Encoding
    Standard: a lead byte, then continuation bytes of six bits each). *)
Definition utf8_bytes (cp : Z) : list Z :=
  if cp <=? 127 then [cp]
  else if cp <=? 2047 then [192 + cp / 64; 128 + cp mod 64]
  else if cp <=? 65535 then
    [224 + cp / 4096; 128 + (cp / 64) mod 64; 128 + cp mod 64]
  else
    [240 + cp / 262144; 128 + (cp / 4096) mod 64;
     128 + (cp / 64) mod 64; 128 + cp mod 64].

(** [new TextEncoder().encode(str)] *)
Definition TextEncoder_encode (str : jsstring) : list Z :=
  concat (map utf8_bytes (toCodePoints str)).

(** The state of the UTF-8 decoder between two bytes of one sequence:
    the code point so far, the continuation bytes still needed, and the
    bounds the next byte must lie in. *)
Record Pending := mkPending {
  codePoint : Z;
  needed : Z;
  lower : Z;
  upper : Z
}.

Inductive Lead :=
| Scalar (cp : Z)
| Begin (p : Pending)
| Invalid.

(** A byte met when no sequence is open. *)
Definition leadByte (b : Z) : Lead :=
  if (0 <=? b) && (b <=? 127) then Scalar b
  else if (194 <=? b) && (b <=? 223) then Begin (mkPending (b - 192) 1 128 191)
  else if (224 <=? b) && (b <=? 239) then
    Begin (mkPending (b - 224) 2 (if b =? 224 then 160 else 128)
                                 (if b =? 237 then 159 else 191))
  else if (240 <=? b) && (b <=? 244) then
    Begin (mkPending (b - 240) 3 (if b =? 240 then 144 else 128)
                                 (if b =? 244 then 143 else 191))
  else Invalid.

(** The UTF-8 decoder of the Encoding Standard without the fatal flag:
    every error gives U+FFFD, and the byte that broke a sequence is read
    again as the first byte of the next one. *)
Fixpoint utf8_decode (st : option Pending) (bytes : list Z) : list Z :=
  match bytes with
  | [] => match st with None => [] | Some _ => [65533] end
  | b :: rest =>
      let fresh :=
        match leadByte b with
        | Scalar cp => cp :: utf8_decode None rest
        | Begin p => utf8_decode (Some p) rest
        | Invalid => 65533 :: utf8_decode None rest
        end in
      match st with
      | None => fresh
      | Some p =>
          if (lower p <=? b) && (b <=? upper p) then
            let cp := codePoint p * 64 + (b - 128) in
            if needed p =? 1 then cp :: utf8_decode None rest
            else utf8_decode (Some (mkPending cp (needed p - 1) 128 191)) rest
          else 65533 :: fresh
      end
  end.

(** [new TextDecoder().decode(bytes)]: UTF-8, errors replaced, and a
    byte order mark at the start of the output dropped ([ignoreBOM] is
    false by default). *)
Definition TextDecoder_decode (bytes : list Z) : jsstring :=
  match utf8_decode None bytes with
  | cp :: cps => if cp =? 65279 then fromCodePoints cps else fromCodePoints (cp :: cps)
  | [] => []
  end.

(** The base64 alphabet: the character code of a six-bit value. *)
Definition b64char (v : Z) : Z :=
  if v <? 26 then 65 + v
  else if v <? 52 then 97 + (v - 26)
  else if v <? 62 then 48 + (v - 52)
  else if v =? 62 then 43
  else 47.

(** The six-bit value of a character of the alphabet. *)
Definition b64value (c : Z) : option Z :=
  if (65 <=? c) && (c <=? 90) then Some (c - 65)
  else if (97 <=? c) && (c <=? 122) then Some (c - 97 + 26)
  else if (48 <=? c) && (c <=? 57) then Some (c - 48 + 52)
  else if c =? 43 then Some 62
  else if c =? 47 then Some 63
  else None.

Fixpoint encodeGroups (bytes : list Z) : jsstring :=
  match bytes with
  | [] => []
  | [a] => [b64char (a / 4); b64char (a mod 4 * 16); 61; 61]
  | [a; b] =>
      [b64char (a / 4); b64char (a mod 4 * 16 + b / 16);
       b64char (b mod 16 * 4); 61]
  | a :: b :: c :: rest =>
      b64char (a / 4) :: b64char (a mod 4 * 16 + b / 16)
      :: b64char (b mod 16 * 4 + c / 64) :: b64char (c mod 64)
      :: encodeGroups rest
  end.

(** [btoa(data)]: throws (here [None]) when a code unit is above 255. *)
Definition btoa (data : jsstring) : option jsstring :=
  if forallb (fun c => (0 <=? c) && (c <=? 255)) data
  then Some (encodeGroups data) else None.

Definition isAsciiWhitespace (c : Z) : bool :=
  (c =? 9) || (c =? 10) || (c =? 12) || (c =? 13) || (c =? 32).

(** Step 2 of forgiving-base64 decode: when the length is a multiple of
    four, one or two [=] at the end are removed. *)
Definition stripPadding (data : jsstring) : jsstring :=
  if Z.of_nat (length data) mod 4 =? 0 then
    match rev data with
    | c1 :: r1 =>
        if c1 =? 61 then
          match r1 with
          | c2 :: r2 => if c2 =? 61 then rev r2 else rev r1
          | [] => rev r1
          end
        else data
    | [] => data
    end
  else data.

Fixpoint sextets (data : jsstring) : option (list Z) :=
  match data with
  | [] => Some []
  | c :: data' =>
      match b64value c, sextets data' with
      | Some v, Some vs => Some (v :: vs)
      | _, _ => None
      end
  end.

(** Four six-bit values give three bytes; of a last group of three or
    two values the spare low bits are dropped. *)
Fixpoint decodeGroups (vs : list Z) : list Z :=
  match vs with
  | a :: b :: c :: d :: rest =>
      (a * 4 + b / 16) :: (b mod 16 * 16 + c / 4) :: (c mod 4 * 64 + d)
      :: decodeGroups rest
  | [a; b; c] => [a * 4 + b / 16; b mod 16 * 16 + c / 4]
  | [a; b] => [a * 4 + b / 16]
  | _ => []
  end.

(** [atob(data)], the forgiving-base64 decode of the HTML Standard;
    [None] is the [InvalidCharacterError] it throws. *)
Definition atob (data : jsstring) : option jsstring :=
  let data := stripPadding (List.filter (fun c => negb (isAsciiWhitespace c)) data) in
  if Z.of_nat (length data) mod 4 =? 1 then None
  else match sextets data with
       | Some vs => Some (decodeGroups vs)
       | None => None
       end.

(** [utf8ToBase64(str)]: the [catch] branch falls back to [btoa(str)]. *)
Definition utf8ToBase64 (str : jsstring) : option jsstring :=
  let bytes := TextEncoder_encode str in
  let binary := map (fun b => b mod 65536) bytes in
  match btoa binary with
  | Some b64 => Some b64
  | None => btoa str
  end.

(** [base64ToUtf8(base64)]: the [catch] branch calls [atob] again, which
    throws again on the same input. *)
Definition base64ToUtf8 (base64 : jsstring) : option jsstring :=
  match atob base64 with
  | Some binary =>
      let bytes := map (fun c => c mod 256) binary in
      Some (TextDecoder_decode bytes)
  | None => atob base64
  end.

(** [String.prototype.startsWith] *)
Fixpoint startsWith (s prefix : jsstring) : bool :=
  match prefix, s with
  | [], _ => true
  | p :: prefix', c :: s' => (c =? p) && startsWith s' prefix'
  | _ :: _, [] => false
  end.

(** The code units of an ASCII literal of the source. *)
Fixpoint lit (s : string) : jsstring :=
  match s with
  | EmptyString => []
  | String a s' => Z.of_nat (nat_of_ascii a) :: lit s'
  end.

End Codec.

(** ** The client: instance, page and network *)

Module Engine.
Import Merge Codec.

(** Document objects live in a store; a location stands for the
    reference JavaScript passes around, so that [data.lastUpdated = ...]
    is seen by every holder of the object. *)
Definition loc := nat.

Record Config := mkConfig {
  owner : string;
  repo : string;
  branch : string;
  dataFile : string;
  token : jsstring
}.

(** The argument of [saveConfig]: any subset of the fields. *)
Record ConfigPatch := mkPatch {
  new_owner : option string;
  new_repo : option string;
  new_branch : option string;
  new_dataFile : option string;
  new_token : option jsstring
}.

(** An entry of the queue; [D] is [loc] in memory and [Document] once
    serialised into [localStorage]. *)
Record Op (D : Type) := mkOp {
  op_action : string;
  op_data : D;
  op_message : string;
  op_timestamp : Z
}.
Arguments mkOp {D}.
Arguments op_action {D}.
Arguments op_data {D}.
Arguments op_message {D}.
Arguments op_timestamp {D}.

(** What [JSON.parse] gives for the text of the data file: a document,
    or a value of another shape, one that [mergeData] cannot read (no
    [history] to spread, no [tasks] to walk); [error] is the message of
    the [TypeError] it throws there. *)
Inductive Parsed :=
| Foreign (error : string)
| Doc (doc : Document).

(** [localStorage], by key; [None] is a key never written. Values are
    kept as the data their JSON text denotes. *)
Record Storage := mkStorage {
  github_config : option Config;          (* 'github-config' *)
  sync_queue : option (list (Op Document)); (* 'sync-queue' *)
  tracker_data : option Parsed            (* 'operation-tracker-data' *)
}.

(** The [content] of a file reply: text that does not decode or parse,
    with the message of the error thrown, or the value it parses to. *)
Inductive Content :=
| Garbled (error : string)
| Encoded (value : Parsed).

(** What reading [data.name] and [data.owner.login] of the body of a
    probe gives: the login, or the error thrown on the way, by
    [response.json()] or by the read of a body without an [owner]
    object. *)
Inductive Owner :=
| NoOwner (error : string)
| Login (login : string).

(** The JSON body of a reply, by the fields the client reads:
    [message] of an error body, [sha] ([data.sha] of a file,
    [result.content.sha] of a commit), [content], [commit] and
    [owner.login]. *)
Record Body := mkBody {
  body_message : string;
  body_sha : string;
  body_content : Content;
  body_commit : string;
  body_owner : Owner
}.

Inductive Reply :=
| Rejected (error : string)                         (* [fetch] rejects *)
| Http (status : Z) (statusText : string) (body : Body).

Inductive Request :=
| PROBE                                             (* GET /repos/o/r *)
| GET                                               (* GET .../contents/file *)
| PUT (content : Document) (message : string) (sha : option string).

Inductive Indicator := Checking | Connected | LocalMode | ErrorMode.

Record State := mkState {
  (* the fields of the instance *)
  config : Config;
  syncQueue : list (Op loc);
  isConnected : bool;
  currentSHA : option string;
  (* the page *)
  storage : Storage;
  heap : loc -> Document;
  next : loc;                   (* the first location not yet in use *)
  clock : Z;
  toasts : list string;         (* messages given to [showError] *)
  indicator : Indicator;        (* the connection status shown *)
  (* the network: replies still to come, requests made so far *)
  net : list Reply;
  sent : list Request
}.

Definition set_config (c : Config) (st : State) : State :=
  mkState c (syncQueue st) (isConnected st) (currentSHA st) (storage st)
    (heap st) (next st) (clock st) (toasts st) (indicator st) (net st) (sent st).
Definition set_syncQueue (q : list (Op loc)) (st : State) : State :=
  mkState (config st) q (isConnected st) (currentSHA st) (storage st)
    (heap st) (next st) (clock st) (toasts st) (indicator st) (net st) (sent st).
Definition set_isConnected (b : bool) (st : State) : State :=
  mkState (config st) (syncQueue st) b (currentSHA st) (storage st)
    (heap st) (next st) (clock st) (toasts st) (indicator st) (net st) (sent st).
Definition set_currentSHA (s : option string) (st : State) : State :=
  mkState (config st) (syncQueue st) (isConnected st) s (storage st)
    (heap st) (next st) (clock st) (toasts st) (indicator st) (net st) (sent st).
Definition set_storage (s : Storage) (st : State) : State :=
  mkState (config st) (syncQueue st) (isConnected st) (currentSHA st) s
    (heap st) (next st) (clock st) (toasts st) (indicator st) (net st) (sent st).
Definition set_heap (h : loc -> Document) (st : State) : State :=
  mkState (config st) (syncQueue st) (isConnected st) (currentSHA st) (storage st)
    h (next st) (clock st) (toasts st) (indicator st) (net st) (sent st).
Definition set_next (n : loc) (st : State) : State :=
  mkState (config st) (syncQueue st) (isConnected st) (currentSHA st) (storage st)
    (heap st) n (clock st) (toasts st) (indicator st) (net st) (sent st).
Definition set_clock (t : Z) (st : State) : State :=
  mkState (config st) (syncQueue st) (isConnected st) (currentSHA st) (storage st)
    (heap st) (next st) t (toasts st) (indicator st) (net st) (sent st).
Definition set_toasts (l : list string) (st : State) : State :=
  mkState (config st) (syncQueue st) (isConnected st) (currentSHA st) (storage st)
    (heap st) (next st) (clock st) l (indicator st) (net st) (sent st).
Definition set_indicator (i : Indicator) (st : State) : State :=
  mkState (config st) (syncQueue st) (isConnected st) (currentSHA st) (storage st)
    (heap st) (next st) (clock st) (toasts st) i (net st) (sent st).
Definition set_net (l : list Reply) (st : State) : State :=
  mkState (config st) (syncQueue st) (isConnected st) (currentSHA st) (storage st)
    (heap st) (next st) (clock st) (toasts st) (indicator st) l (sent st).
Definition set_sent (l : list Request) (st : State) : State :=
  mkState (config st) (syncQueue st) (isConnected st) (currentSHA st) (storage st)
    (heap st) (next st) (clock st) (toasts st) (indicator st) (net st) l.

(** [new Date()]: a logical clock, one tick per reading. *)
Definition Date_now (st : State) : Z * State :=
  (clock st, set_clock (clock st + 1) st).

(** A new object. *)
Definition alloc (d : Document) (st : State) : loc * State :=
  (next st, set_next (S (next st)) (set_heap (<[next st := d]> (heap st)) st)).

(** [fetch]: the next reply of the script; a script that has run out
    answers as a network that is down. *)
Definition fetch (rq : Request) (st : State) : Reply * State :=
  let st := set_sent (sent st ++ [rq]) st in
  match net st with
  | [] => (Rejected "Failed to fetch", st)
  | r :: rest => (r, set_net rest st)
  end.

(** [response.ok] *)
Definition ok (status : Z) : bool := (200 <=? status) && (status <=? 299).

(** [String.prototype.includes] *)
Fixpoint includes (s needle : string) : bool :=
  String.prefix needle s ||
  match s with
  | EmptyString => false
  | String _ s' => includes s' needle
  end.

(** A string in a condition: the empty string is falsy. *)
Definition truthy (s : jsstring) : bool :=
  match s with [] => false | _ :: _ => true end.

Definition nonempty (s : string) : bool :=
  match s with EmptyString => false | String _ _ => true end.

(** The outcome of a call that may throw. *)
Inductive Completion := Returned | Threw (error : string).

(** [loadConfig()] *)
Definition loadConfig (s : Storage) : Config :=
  match github_config s with
  | Some stored => stored
  | None => mkConfig "" "" "main" "data/db.json" []
  end.

(** [{ ...this.config, ...config }] *)
Definition spread (c : Config) (p : ConfigPatch) : Config :=
  mkConfig (default (owner c) (new_owner p)) (default (repo c) (new_repo p))
           (default (branch c) (new_branch p))
           (default (dataFile c) (new_dataFile p))
           (default (token c) (new_token p)).

(** [saveConfig(config)]: the instance keeps the token as given, the
    copy written to [localStorage] carries [btoa(token)]; when [btoa]
    throws nothing is written. *)
Definition saveConfig (p : ConfigPatch) (st : State) : Completion * State :=
  let st := set_config (spread (config st) p) st in
  let c := config st in
  let write (t : jsstring) :=
    set_storage (mkStorage (Some (mkConfig (owner c) (repo c) (branch c) (dataFile c) t))
                           (sync_queue (storage st)) (tracker_data (storage st))) st in
  if truthy (token c) then
    match btoa (token c) with
    | Some obfuscated => (Returned, write obfuscated)
    | None => (Threw "InvalidCharacterError", st)
    end
  else (Returned, write (token c)).

(** [getToken()]; [None] is [null]. *)
Definition getToken (st : State) : option jsstring :=
  let t := token (config st) in
  if negb (truthy t) then None
  else if startsWith t (lit "ghp_") || startsWith t (lit "github_pat_") then Some t
  else match atob t with
       | Some decoded => Some decoded
       | None => Some t
       end.

(** [!token] *)
Definition noToken (t : option jsstring) : bool :=
  match t with Some s => negb (truthy s) | None => true end.

(** [showError(message)] *)
Definition showError (message : string) (st : State) : State :=
  set_toasts (toasts st ++ [message]) st.

(** [updateConnectionStatus(status)], on a page that has the indicator. *)
Definition updateConnectionStatus (status : Indicator) (st : State) : State :=
  set_indicator status st.

(** [handleError(error)], given [error.message]; for an error without
    a message [error.toString()] is the name of the error. *)
Definition handleError (error : string) (st : State) : State :=
  let errorMessage := if nonempty error then error else "Error" in
  let st :=
    if includes errorMessage "401" then
      set_isConnected false
        (showError "Invalid GitHub token. Please reconfigure in Settings." st)
    else if includes errorMessage "404" then
      showError "Repository or file not found. Check Settings." st
    else if includes errorMessage "409" || String.eqb errorMessage "CONFLICT" then
      showError "Conflict detected. Someone else modified the data. Refreshing..." st
    else if includes errorMessage "rate limit" then
      showError "GitHub API rate limit exceeded. Try again later." st
    else
      showError ("GitHub sync failed: " ++ errorMessage ++ ". Changes saved locally.") st
  in updateConnectionStatus ErrorMode st.

(** [saveLocalData(data)]: the text written is that of the object as it
    is at the time of the call. *)
Definition saveLocalData (data : Parsed) (st : State) : State :=
  let s := storage st in
  set_storage (mkStorage (github_config s) (sync_queue s) (Some data)) st.

(** [getInitialData()] *)
Definition getInitialData (st : State) : Document * State :=
  let (now, st) := Date_now st in
  ({| version := "1.0.0";
      lastUpdated := now;
      users := [ mkUser 1 "Liam" "Tech Lead";
                 mkUser 2 "Trân" "Sales Lead";
                 mkUser 3 "Taddy" "CEO";
                 mkUser 4 "Hiếu" "Software Lead";
                 mkUser 5 "Vỹ" "UX Lead";
                 mkUser 6 "Intern Thân" "Tech Intern";
                 mkUser 7 "Intern Trân" "Tech Intern" ];
      tasks := [];
      requests := [];
      history := [] |}, st).

(** [loadLocalData()] *)
Definition loadLocalData (st : State) : Parsed * State :=
  match tracker_data (storage st) with
  | Some stored => (stored, st)
  | None => let (initial, st) := getInitialData st in (Doc initial, st)
  end.

(** [saveSyncQueue()]: every entry is written with the present content
    of its document. *)
Definition saveSyncQueue (st : State) : State :=
  let s := storage st in
  let text :=
    map (fun o => mkOp (op_action o) (heap st (op_data o)) (op_message o)
                       (op_timestamp o)) (syncQueue st) in
  set_storage (mkStorage (github_config s) (Some text) (tracker_data s)) st.

(** [addToSyncQueue(action, data, message)] *)
Definition addToSyncQueue (action : string) (data : loc) (message : string)
    (st : State) : State :=
  let (now, st) := Date_now st in
  saveSyncQueue (set_syncQueue (syncQueue st ++ [mkOp action data message now]) st).

(** [loadSyncQueue()]: parsing the stored text makes a new object for
    the document of every entry. *)
Fixpoint parseQueue (text : list (Op Document)) (st : State) : list (Op loc) * State :=
  match text with
  | [] => ([], st)
  | o :: text' =>
      let (l, st) := alloc (op_data o) st in
      let (q, st) := parseQueue text' st in
      (mkOp (op_action o) l (op_message o) (op_timestamp o) :: q, st)
  end.

Definition loadSyncQueue (st : State) : list (Op loc) * State :=
  match sync_queue (storage st) with
  | Some text => parseQueue text st
  | None => ([], st)
  end.

(** [new GitHubAPI()] on the page of [st]. *)
Definition constructor (st : State) : State :=
  let st := set_config (loadConfig (storage st)) st in
  let (q, st) := loadSyncQueue st in
  set_currentSHA None (set_isConnected false (set_syncQueue q st)).

(** [testConnection()]. The result object is built after
    [this.isConnected = true]: when reading [data.owner.login] throws,
    the [catch] sets the flag back to false and the error goes on. *)
Definition testConnection (st : State) : Completion * State :=
  if noToken (getToken st) || negb (nonempty (owner (config st)))
     || negb (nonempty (repo (config st)))
  then (Threw "GitHub configuration incomplete", st)
  else
    let (reply, st) := fetch PROBE st in
    match reply with
    | Rejected error => (Threw error, set_isConnected false st)
    | Http status statusText body =>
        if ok status then
          match body_owner body with
          | Login _ => (Returned, set_isConnected true st)
          | NoOwner error =>
              (Threw error, set_isConnected false (set_isConnected true st))
          end
        else (Threw ("GitHub API error: " ++ pretty status ++ " " ++ statusText),
              set_isConnected false st)
    end.

(** [initialize()] *)
Definition initialize (st : State) : bool * State :=
  if noToken (getToken st) then (false, st)
  else
    match testConnection st with
    | (Returned, st) => (true, st)
    | (Threw error, st) => (false, handleError error st)
    end.

(** [fetchData()]; the value returned is a new object. *)
Definition fetchData (st : State) : Parsed * State :=
  if noToken (getToken st) || negb (isConnected st) then loadLocalData st
  else
    let (reply, st) := fetch GET st in
    let failed (error : string) (st : State) := loadLocalData (handleError error st) in
    match reply with
    | Rejected error => failed error st
    | Http status statusText body =>
        if status =? 404 then
          let (initial, st) := getInitialData st in (Doc initial, st)
        else if negb (ok status) then
          failed ("GitHub API error: " ++ pretty status ++ " " ++ statusText) st
        else
          let st := set_currentSHA (Some (body_sha body)) st in
          match body_content body with
          | Garbled error => failed error st
          | Encoded jsonData => (jsonData, saveLocalData jsonData st)
          end
    end.

(** What [commitData] and [handleConflict] return. *)
Inductive Result :=
| Committed (commit : string)        (* { success: true, commit } *)
| Queued (error : option string)     (* { success: false, queued: true, error } *)
| Conflict (error : string).         (* { success: false, conflict: true, error } *)

Definition success (r : Result) : bool :=
  match r with Committed _ => true | _ => false end.

(** [data.lastUpdated = new Date().toISOString()] *)
Definition stamp (now : Z) (d : Document) : Document :=
  mkDocument (version d) now (users d) (tasks d) (requests d) (history d).

(** The [try] block of [commitData] after the request: the new sha and
    the commit, or the message of the error thrown. *)
Definition putOutcome (reply : Reply) : string * string + string :=
  match reply with
  | Rejected error => inr error
  | Http status _ body =>
      if ok status then inl (body_sha body, body_commit body)
      else if status =? 409 then inr "CONFLICT"
      else inr ("GitHub commit failed: " ++ pretty status ++ " " ++ body_message body)
  end.

(** [if (this.currentSHA) body.sha = this.currentSHA] *)
Definition shaField (s : option string) : option string :=
  match s with
  | Some sha => if nonempty sha then Some sha else None
  | None => None
  end.

(** [error.message === 'CONFLICT'] on the outcome of a reply. *)
Definition conflicted (reply : Reply) : bool :=
  match putOutcome reply with
  | inl _ => false
  | inr error => String.eqb error "CONFLICT"
  end.

(** The head of the [try] block of [commitData]: the document is
    stamped in place and sent, with the sha the client knows. *)
Definition putData (data : loc) (commitMessage : string) (st : State) : Reply * State :=
  let (now, st) := Date_now st in
  let st := set_heap (alter (stamp now) data (heap st)) st in
  fetch (PUT (heap st data) commitMessage (shaField (currentSHA st))) st.

(** The head of [handleConflict]: the remote data is fetched and merged
    with the local document into a new object, or [mergeData] throws,
    after it has read the clock. *)
Definition fetchAndMerge (localData : loc) (st : State) : (string + loc) * State :=
  let (remoteData, st) := fetchData st in
  let (now, st) := Date_now st in
  match remoteData with
  | Foreign error => (inl error, st)
  | Doc remote =>
      let (mergedData, st) := alloc (mergeData now remote (heap st localData)) st in
      (inr mergedData, st)
  end.

(** [handleConflict(localData, commitMessage)], with the [commitData] it
    calls back; the [catch] turns what [mergeData] throws into the
    conflict result. *)
Definition handleConflict
    (commitData : loc -> string -> State -> option (Result * State))
    (localData : loc) (commitMessage : string) (st : State)
    : option (Result * State) :=
  match fetchAndMerge localData st with
  | (inr mergedData, st) => commitData mergedData (commitMessage ++ " (merged)") st
  | (inl error, st) => Some (Conflict error, st)
  end.

(** [commitData(data, commitMessage)]. The source calls itself through
    [handleConflict] without a bound; [fuel] bounds the depth of these
    calls and [None] is a run that needs more. *)
Fixpoint commitData (fuel : nat) (data : loc) (commitMessage : string)
    (st : State) : option (Result * State) :=
  match fuel with
  | O => None
  | S fuel' =>
      if noToken (getToken st) || negb (isConnected st) then
        let st := addToSyncQueue "update" data commitMessage st in
        let st := saveLocalData (Doc (heap st data)) st in
        Some (Queued None, st)
      else
        let (reply, st) := putData data commitMessage st in
        match putOutcome reply with
        | inl (sha, commit) =>
            let st := set_currentSHA (Some sha) st in
            let st := saveLocalData (Doc (heap st data)) st in
            Some (Committed commit, st)
        | inr error =>
            if String.eqb error "CONFLICT" then
              handleConflict (commitData fuel') data commitMessage st
            else
              let st := handleError error st in
              let st := addToSyncQueue "update" data commitMessage st in
              let st := saveLocalData (Doc (heap st data)) st in
              Some (Queued (Some error), st)
        end
  end.

(** What [processSyncQueue] returns; the early return of an empty queue
    has no [remaining]. *)
Record FlushResult := mkFlush {
  processed : nat;
  failed : nat;
  remaining : option nat
}.

(** The [while] loop of [processSyncQueue]: the counters and the state
    when it is left. *)
Fixpoint flushLoop (rounds fuel : nat) (processed : nat) (st : State)
    : option (nat * nat * State) :=
  match rounds with
  | O => None
  | S rounds' =>
      match syncQueue st with
      | [] => Some (processed, O, st)
      | item :: _ =>
          match commitData fuel (op_data item) (op_message item) st with
          | None => None
          | Some (result, st) =>
              if success result
              then flushLoop rounds' fuel (S processed)
                     (set_syncQueue (tail (syncQueue st)) st)
              else Some (processed, 1%nat, st)
          end
      end
  end.

(** [processSyncQueue()] *)
Definition processSyncQueue (fuel : nat) (st : State) : option (FlushResult * State) :=
  match syncQueue st with
  | [] => Some (mkFlush 0 0 None, st)
  | _ :: _ =>
      match flushLoop fuel fuel O st with
      | None => None
      | Some (processed, failed, st) =>
          let st := saveSyncQueue st in
          Some (mkFlush processed failed (Some (length (syncQueue st))), st)
      end
  end.

End Engine.

(** ** Sample data *)

Module Samples.
Import Codec Engine.

Definition roster : list User :=
  [mkUser 1 "Liam" "Tech Lead"; mkUser 2 "Trân" "Sales Lead"].

Definition taskUnedited : Task :=
  mkTask "t1" "3Sạch" "Install devices" "" 1 "todo" "todo" "normal" "2025-09-20T10:00:00Z".
Definition taskEdited : Task :=
  mkTask "t1" "3Sạch" "Install devices" "" 1 "done" "done" "normal" "2025-09-26T15:30:00Z".
Definition taskRemoteOnly : Task :=
  mkTask "t2" "3Sạch" "Survey" "" 2 "todo" "todo" "critical" "2025-09-21T09:00:00Z".

Definition entryCreated : HistoryEntry := mkEntry "h1" "t1" 1 "create" 100 "".
Definition entryEdited : HistoryEntry := mkEntry "h2" "t1" 1 "update" 200 "done on site".

(** What the repository holds, and the caller's copy: loaded when the
    repository had only [t1], then edited. *)
Definition remoteDoc : Document :=
  mkDocument "1.0.0" 50 roster [taskUnedited; taskRemoteOnly] [] [entryCreated].
Definition localDoc : Document :=
  mkDocument "1.0.0" 40 [] [taskEdited] [] [entryCreated; entryEdited].

Definition emptyDoc : Document := mkDocument "1.0.0" 0 [] [] [] [].

(** The documents in memory: the caller's at 0, three queued ones. *)
Definition objects (l : loc) : Document :=
  match l with
  | 0%nat => localDoc
  | 1%nat => mkDocument "1.0.0" 10 roster [taskUnedited] [] []
  | 2%nat => mkDocument "1.0.0" 20 roster [taskUnedited] [] [entryCreated]
  | 3%nat => mkDocument "1.0.0" 30 roster [taskEdited] [] [entryCreated; entryEdited]
  | _ => emptyDoc
  end.

(** A page never used before: nothing stored, nothing sent. *)
Definition freshPage : State :=
  mkState (mkConfig "" "" "" "" []) [] false None (mkStorage None None None)
          objects 4%nat 1000 [] Checking [] [].

(** A configured and connected client with an empty queue, before the
    replies [script]. *)
Definition connected (script : list Reply) : State :=
  mkState (mkConfig "acme" "tracker" "main" "data/db.json" (lit "ghp_0123456789"))
          [] true (Some "sha0") (mkStorage None None None)
          objects 4%nat 1000 [] Connected script [].

(** The same client with three operations waiting. *)
Definition pending (script : list Reply) : State :=
  set_syncQueue [mkOp "update" 1%nat "A" 11; mkOp "update" 2%nat "B" 12;
                 mkOp "update" 3%nat "C" 13] (connected script).

(** The bodies of the contents API have no [owner] object. *)
Definition noOwner : Owner :=
  NoOwner "Cannot read properties of undefined (reading 'login')".

Definition committed (sha : string) : Reply :=
  Http 200 "OK" (mkBody "" sha (Garbled "") ("commit of " ++ sha) noOwner).
Definition file (sha : string) (d : Document) : Reply :=
  Http 200 "OK" (mkBody "" sha (Encoded (Doc d)) "" noOwner).

(** The repository, as the probe is answered with it. *)
Definition repository (login : string) : Reply :=
  Http 200 "OK" (mkBody "" "" (Garbled "") "" (Login login)).

(** A data file that holds [{}]. *)
Definition emptyObject (sha : string) : Reply :=
  Http 200 "OK"
    (mkBody "" sha (Encoded (Foreign "Cannot read properties of undefined (reading 'forEach')")) ""
       noOwner).
Definition refused (status : Z) (statusText message : string) : Reply :=
  Http status statusText (mkBody message "" (Garbled "") "" noOwner).

Definition tokenOnly (t : jsstring) : ConfigPatch :=
  mkPatch None None None None (Some t).

(** The text [{"name":"Trân 😀"}] in UTF-16 code units. *)
Definition unicodeText : jsstring :=
  [123; 34; 110; 97; 109; 101; 34; 58; 34; 84; 114; 226; 110; 32;
   55357; 56832; 34; 125].

End Samples.

(** ** Notions used in the statements and proofs *)

Module Notions.
Import Codec Engine.

(** The six-bit values that [encodeGroups] writes, without the padding. *)
Fixpoint encodeValues (bytes : list Z) : list Z :=
  match bytes with
  | [] => []
  | [a] => [a / 4; a mod 4 * 16]
  | [a; b] => [a / 4; a mod 4 * 16 + b / 16; b mod 16 * 4]
  | a :: b :: c :: rest =>
      a / 4 :: (a mod 4 * 16 + b / 16) :: (b mod 16 * 4 + c / 64) :: c mod 64
      :: encodeValues rest
  end.

(** The [=] signs that [encodeGroups] ends with. *)
Fixpoint encodePadding (bytes : list Z) : jsstring :=
  match bytes with
  | [] => []
  | [_] => [61; 61]
  | [_; _] => [61]
  | _ :: _ :: _ :: rest => encodePadding rest
  end.

Definition isByte (b : Z) : Prop := 0 <= b < 256.
Definition isSextet (v : Z) : Prop := 0 <= v < 64.

(** A Unicode scalar value: a code point that is not a surrogate. *)
Definition isScalar (cp : Z) : Prop :=
  0 <= cp <= 1114111 /\ ~ (55296 <= cp <= 57343).

(** The client is not in a position to write: no token, or not
    connected. *)
Definition offline (st : State) : bool :=
  noToken (getToken st) || negb (isConnected st).


(** The method of a request. *)
Definition method (rq : Request) : string :=
  match rq with
  | PROBE | GET => "GET"
  | PUT _ _ _ => "PUT"
  end.


End Notions.

(** ** The callers inside the class: import and the network events *)

Module Handlers.
Import Merge Codec Engine.

(** The object a backup file parses to, by the fields that [importData]
    tests; [None] is a field that is absent. [lastUpdated], which is not
    tested, is kept as it is. *)
Record Backup := mkBackup {
  backup_version : option string;
  backup_lastUpdated : Z;
  backup_users : option (list User);
  backup_tasks : option (list Task);
  backup_requests : option (list ChangeRequest);
  backup_history : option (list HistoryEntry)
}.

(** What the [FileReader] delivers: a read error, text that
    [JSON.parse] refuses, or the object parsed. *)
Inductive FileText :=
| ReadError (error : string)
| NotJson (error : string)
| Json (data : Backup).

(** [!data.version || !data.users || !data.tasks || !data.requests ||
    !data.history]: an absent field and an empty version string are
    falsy, an array is truthy even when empty. The document is the
    object itself when the test lets it through. *)
Definition validated (data : Backup) : option Document :=
  match backup_version data, backup_users data, backup_tasks data,
        backup_requests data, backup_history data with
  | Some v, Some u, Some t, Some r, Some h =>
      if nonempty v
      then Some (mkDocument v (backup_lastUpdated data) u t r h)
      else None
  | _, _, _, _, _ => None
  end.

(** [window.currentUser?.name || 'Unknown'] *)
Definition importer (currentUser : option string) : string :=
  match currentUser with
  | Some name => if nonempty name then name else "Unknown"
  | None => "Unknown"
  end.

(** [importData(file)]: [inl] is the error the promise is rejected
    with, [inr] the result it resolves to. *)
Definition importData (file : FileText) (currentUser : option string)
    (fuel : nat) (st : State) : option ((string + Result) * State) :=
  match file with
  | ReadError error => Some (inl error, st)
  | NotJson error => Some (inl error, st)
  | Json data =>
      match validated data with
      | None => Some (inl "Invalid data structure", st)
      | Some doc =>
          let (object, st) := alloc doc st in
          match commitData fuel object
                  ("Data imported from backup by " ++ importer currentUser) st with
          | Some (result, st) => Some (inr result, st)
          | None => None
          end
      end
  end.


(** The [offline] listener of [setupOnlineListener]. *)
Definition onOffline (st : State) : State :=
  updateConnectionStatus LocalMode
    (showError "You are offline. Changes will sync when connection returns." st).

End Handlers.

(** ** Further notions for statements *)

Module Terms.
Import Codec Engine.

(** A reply with a 2xx status. *)
Definition okReply (reply : Reply) : bool :=
  match reply with
  | Http status _ _ => ok status
  | Rejected _ => false
  end.

(** A reply that [testConnection] takes for a connection: a 2xx
    status, and a body of which [owner.login] can be read. *)
Definition probeOk (reply : Reply) : bool :=
  match reply with
  | Http status _ body =>
      ok status && match body_owner body with Login _ => true | NoOwner _ => false end
  | Rejected _ => false
  end.

(** [error.message || error.toString()] as [handleError] reads it. *)
Definition errorText (error : string) : string :=
  if nonempty error then error else "Error".

(** The queue as [JSON.stringify] writes it in state [st]. *)
Definition queueText (st : State) : list (Op Document) :=
  map (fun o => mkOp (op_action o) (heap st (op_data o)) (op_message o)
                     (op_timestamp o)) (syncQueue st).

(** The commit message of a write. *)
Definition requestMessage (rq : Request) : option string :=
  match rq with
  | PUT _ message _ => Some message
  | _ => None
  end.

(** The sha a write carries. *)
Definition requestSha (rq : Request) : option string :=
  match rq with
  | PUT _ _ sha => sha
  | _ => None
  end.

(** [String.prototype.toWellFormed]: every lone surrogate replaced by
    U+FFFD. *)
Definition toWellFormed (s : jsstring) : jsstring :=
  fromCodePoints (toCodePoints s).

(** A string without the byte order mark it may start with. *)
Definition dropMark (s : jsstring) : jsstring :=
  match s with
  | c :: s' => if c =? 65279 then s' else s
  | [] => []
  end.

(** A character that base64 text cannot hold: outside the alphabet,
    and neither ASCII whitespace nor the padding sign. *)
Definition foreignChar (c : Z) : bool :=
  negb (isAsciiWhitespace c) && negb (c =? 61)
  && match b64value c with Some _ => false | None => true end.

(** A reply from which [fetchData] gets a value: the file is missing,
    or the status is 2xx and the content decodes and parses. *)
Definition readable (reply : Reply) : bool :=
  match reply with
  | Rejected _ => false
  | Http status _ body =>
      (status =? 404)
      || (ok status && match body_content body with
                       | Encoded _ => true
                       | Garbled _ => false
                       end)
  end.

(** A patch that sets the branch only. *)
Definition branchOnly (b : string) : ConfigPatch :=
  mkPatch None None (Some b) None None.

End Terms.

(** * Properties *)

(** ** The merge *)

Module MergeFacts.
Import Merge.

Section ArraysById.
Context {Id A : Type} `{EqDecision Id}.
Variable idField : A -> Id.

Lemma map_get_map_set k k' v (m : list (Id * A)) :
  map_get k' (map_set k v m) = if decide (k = k') then Some v else map_get k' m.
Proof.
  induction m as [|[k0 v0] m IH]; simpl.
  - destruct (decide (k = k')); reflexivity.
  - destruct (decide (k0 = k)) as [->|Hne]; simpl.
    + destruct (decide (k = k')); reflexivity.
    + rewrite IH. destruct (decide (k0 = k')) as [->|]; [|reflexivity].
      destruct (decide (k = k')); congruence.
Qed.

Lemma map_set_keys k v (m : list (Id * A)) :
  map fst (map_set k v m) =
  if decide (k ∈ map fst m) then map fst m else (map fst m ++ [k])%list.
Proof.
  induction m as [|[k0 v0] m IH]; cbn [map_set map fst app].
  - rewrite decide_False; [reflexivity|apply not_elem_of_nil].
  - destruct (decide (k0 = k)) as [->|Hne]; cbn [map fst].
    + rewrite decide_True; [reflexivity|apply elem_of_cons; now left].
    + rewrite IH. destruct (decide (k ∈ map fst m)) as [Hin|Hout].
      * rewrite decide_True; [reflexivity|apply elem_of_cons; now right].
      * rewrite decide_False; [reflexivity|].
        intros Hk. apply elem_of_cons in Hk. destruct Hk; [congruence|contradiction].
Qed.

Lemma map_set_NoDup k v (m : list (Id * A)) :
  NoDup (map fst m) -> NoDup (map fst (map_set k v m)).
Proof.
  intros Hm. rewrite map_set_keys. destruct (decide _) as [|Hout]; [assumption|].
  apply NoDup_app. split; [assumption|]. split; [|apply NoDup_singleton].
  intros x Hx Hk. apply list_elem_of_singleton in Hk. now subst x.
Qed.

Lemma map_set_keyed v (m : list (Id * A)) :
  keyed idField m -> keyed idField (map_set (idField v) v m).
Proof.
  unfold keyed. induction m as [|[k0 v0] m IH]; simpl; intros Hm.
  - repeat constructor.
  - inversion Hm; subst. destruct (decide _) as [Heq|]; constructor; auto.
Qed.

Lemma forEach_set_invariant items (m : list (Id * A)) :
  keyed idField m -> NoDup (map fst m) ->
  keyed idField (forEach_set idField items m) /\ NoDup (map fst (forEach_set idField items m)).
Proof.
  revert m. induction items as [|x items IH]; simpl; intros m Hk Hn; [auto|].
  apply IH; [apply map_set_keyed|apply map_set_NoDup]; assumption.
Qed.

Lemma forEach_set_fresh items :
  keyed idField (forEach_set idField items []) /\ NoDup (map fst (forEach_set idField items [])).
Proof. apply forEach_set_invariant; [constructor|apply NoDup_nil_2]. Qed.

Lemma find_by_id_None k (items : list A) :
  k ∉ map idField items -> find_by_id idField k items = None.
Proof.
  induction items as [|x items IH]; simpl; intros Hout; [reflexivity|].
  apply not_elem_of_cons in Hout. destruct Hout as [Hne Hout].
  rewrite decide_False by congruence. now apply IH.
Qed.

Lemma map_get_forEach_set k items (m : list (Id * A)) :
  NoDup (map idField items) ->
  map_get k (forEach_set idField items m) =
  match find_by_id idField k items with
  | Some x => Some x
  | None => map_get k m
  end.
Proof.
  revert m. induction items as [|x items IH]; simpl; intros m Hn; [reflexivity|].
  apply NoDup_cons in Hn. destruct Hn as [Hout Hn]. rewrite IH by assumption.
  rewrite map_get_map_set. destruct (decide (idField x = k)) as [<-|Hne].
  - now rewrite find_by_id_None.
  - reflexivity.
Qed.

Lemma find_by_id_values k (m : list (Id * A)) :
  keyed idField m -> find_by_id idField k (map_values m) = map_get k m.
Proof.
  unfold keyed, map_values. induction m as [|[k0 v0] m IH]; simpl; intros Hm; [reflexivity|].
  inversion Hm as [|? ? Hkv Hm']; subst. simpl in Hkv. rewrite Hkv.
  destruct (decide _); [reflexivity|]. now apply IH.
Qed.

Lemma keyed_values_ids (m : list (Id * A)) :
  keyed idField m -> map idField (map_values m) = map fst m.
Proof.
  unfold keyed, map_values. induction m as [|[k0 v0] m IH]; simpl; intros Hm; [reflexivity|].
  inversion Hm; subst. simpl in *. f_equal; auto.
Qed.

(** Local wins per id, ids present only remotely are kept. *)
Lemma mergeArrays_find k (remote local : list A) :
  NoDup (map idField remote) -> NoDup (map idField local) ->
  find_by_id idField k (mergeArrays idField remote local) =
  match find_by_id idField k local with
  | Some x => Some x
  | None => find_by_id idField k remote
  end.
Proof.
  intros Hr Hl. unfold mergeArrays.
  destruct (forEach_set_fresh remote) as [Hk1 Hn1].
  destruct (forEach_set_invariant local _ Hk1 Hn1) as [Hk2 Hn2].
  rewrite find_by_id_values by assumption.
  rewrite !map_get_forEach_set by assumption. simpl.
  destruct (find_by_id idField k local); [reflexivity|].
  destruct (find_by_id idField k remote); reflexivity.
Qed.

Lemma mergeArrays_NoDup (remote local : list A) :
  NoDup (map idField (mergeArrays idField remote local)).
Proof.
  unfold mergeArrays.
  destruct (forEach_set_fresh remote) as [Hk1 Hn1].
  destruct (forEach_set_invariant local _ Hk1 Hn1) as [Hk2 Hn2].
  now rewrite keyed_values_ids.
Qed.
End ArraysById.

Section Sort.
Context {A : Type}.
Variable comparefn : A -> A -> Z.

Lemma sort_insert_perm x (l : list A) : sort_insert comparefn x l ≡ₚ x :: l.
Proof.
  induction l as [|y l IH]; simpl; [reflexivity|].
  destruct (comparefn x y <=? 0); [reflexivity|].
  rewrite IH. apply perm_swap.
Qed.

(** Sorting rearranges: nothing is added, nothing is lost. *)
Lemma sort_perm (l : list A) : sort comparefn l ≡ₚ l.
Proof.
  induction l as [|x l IH]; simpl; [reflexivity|].
  now rewrite sort_insert_perm, IH.
Qed.
End Sort.

Lemma sort_insert_newerFirst x l :
  StronglySorted newerFirst l ->
  StronglySorted newerFirst (sort_insert byTimestampDesc x l).
Proof.
  induction 1 as [|y l Hl IH Hy]; simpl.
  - repeat constructor.
  - unfold byTimestampDesc at 1. destruct (Z.leb_spec (timestamp y - timestamp x) 0) as [Hle|Hgt].
    + constructor; [now constructor|]. constructor; [unfold newerFirst; lia|].
      eapply Forall_impl; [eassumption|]. unfold newerFirst. intros; lia.
    + constructor; [assumption|].
      eapply Permutation_Forall; [symmetry; apply sort_insert_perm|].
      constructor; [unfold newerFirst; lia|assumption].
Qed.

Lemma mergeData_history_perm now remote local :
  history (mergeData now remote local) ≡ₚ history remote ++ history local.
Proof. apply sort_perm. Qed.

(** Nothing is removed by the merge: the merged history is as long as
    the two histories together. *)
Lemma mergeData_history_length now remote local :
  length (history (mergeData now remote local))
  = (length (history remote) + length (history local))%nat.
Proof.
  rewrite (Permutation_length (mergeData_history_perm now remote local)).
  apply length_app.
Qed.

Lemma mergeData_history_sorted now remote local :
  StronglySorted newerFirst (history (mergeData now remote local)).
Proof.
  simpl. induction (history remote ++ history local)%list as [|x l IH]; simpl.
  - constructor.
  - now apply sort_insert_newerFirst.
Qed.

(** C5. The merge never drops a history entry: every entry id of the
    remote history or of the local history is an entry id of the merged
    history. *)
Theorem history_never_shrinks now remote local (i : string) :
  i ∈ map entry_id (history remote) \/ i ∈ map entry_id (history local) ->
  i ∈ map entry_id (history (mergeData now remote local)).
Proof.
  intros Hi. rewrite mergeData_history_perm, map_app.
  apply elem_of_app. exact Hi.
Qed.

Lemma history_never_shrinks_witness :
  ("h1" ∈ map entry_id (history Samples.remoteDoc)
   \/ "h1" ∈ map entry_id (history Samples.localDoc))
  /\ "h1" ∈ map entry_id (history (mergeData 7 Samples.remoteDoc Samples.localDoc)).
Proof.
  assert (H : "h1" ∈ map entry_id (history Samples.remoteDoc)
              \/ "h1" ∈ map entry_id (history Samples.localDoc)).
  { left. simpl. apply elem_of_cons. now left. }
  split; [exact H|]. apply (history_never_shrinks 7 Samples.remoteDoc Samples.localDoc "h1" H).
Defined.

(** C1, at the input on which the code and the claim part: an entry that
    both sides hold is twice in the merged history, which is the two
    histories put together and sorted, newest first, with no entry
    removed. *)
Theorem mergeData_history_repeats_shared_entry :
  map entry_id (history Samples.remoteDoc) = ["h1"] /\
  map entry_id (history Samples.localDoc) = ["h1"; "h2"] /\
  map entry_id (history (mergeData 7 Samples.remoteDoc Samples.localDoc))
  = ["h2"; "h1"; "h1"].
Proof. repeat split. Qed.

(** C6. With ids unique on each side, the merged users are the remote
    users, and the tasks and the requests are merged by id: an id that
    the local side has gives the local element, any other id gives the
    remote element if there is one; ids stay unique. *)
Theorem mergeData_by_id now remote local :
  NoDup (map task_id (tasks remote)) -> NoDup (map task_id (tasks local)) ->
  NoDup (map request_id (requests remote)) -> NoDup (map request_id (requests local)) ->
  let merged := mergeData now remote local in
  users merged = users remote /\
  (forall k, find_by_id task_id k (tasks merged) =
             match find_by_id task_id k (tasks local) with
             | Some t => Some t
             | None => find_by_id task_id k (tasks remote)
             end) /\
  (forall k, find_by_id request_id k (requests merged) =
             match find_by_id request_id k (requests local) with
             | Some r => Some r
             | None => find_by_id request_id k (requests remote)
             end) /\
  NoDup (map task_id (tasks merged)) /\
  NoDup (map request_id (requests merged)).
Proof.
  intros Htr Htl Hrr Hrl merged. subst merged. simpl.
  split; [reflexivity|]. split; [intros k; now apply mergeArrays_find|].
  split; [intros k; now apply mergeArrays_find|].
  split; apply mergeArrays_NoDup.
Qed.

Lemma mergeData_by_id_witness :
  let merged := mergeData 7 Samples.remoteDoc Samples.localDoc in
  find_by_id task_id "t1" (tasks merged) = Some Samples.taskEdited /\
  find_by_id task_id "t2" (tasks merged) = Some Samples.taskRemoteOnly /\
  users merged = users Samples.remoteDoc.
Proof.
  assert (Htr : NoDup (map task_id (tasks Samples.remoteDoc)))
    by (apply (bool_decide_unpack _); vm_compute; exact I).
  assert (Htl : NoDup (map task_id (tasks Samples.localDoc)))
    by (apply (bool_decide_unpack _); vm_compute; exact I).
  assert (Hrr : NoDup (map request_id (requests Samples.remoteDoc)))
    by (apply (bool_decide_unpack _); vm_compute; exact I).
  assert (Hrl : NoDup (map request_id (requests Samples.localDoc)))
    by (apply (bool_decide_unpack _); vm_compute; exact I).
  destruct (mergeData_by_id 7 Samples.remoteDoc Samples.localDoc Htr Htl Hrr Hrl)
    as (Hu & Ht & _).
  split; [rewrite Ht; reflexivity|]. split; [rewrite Ht; reflexivity|exact Hu].
Defined.

End MergeFacts.

(** ** The envelope *)

Module CodecFacts.
Import Codec Notions.
Local Open Scope list_scope.

Ltac case_if :=
  match goal with
  | |- context [if ?b then _ else _] => let E := fresh "E" in destruct b eqn:E
  end.

Ltac euclid := Z.to_euclidean_division_equations; lia.

Lemma list_ind3 {A} (P : list A -> Prop) :
  P [] -> (forall a, P [a]) -> (forall a b, P [a; b]) ->
  (forall a b c l, P l -> P (a :: b :: c :: l)) ->
  forall l, P l.
Proof.
  intros H0 H1 H2 H3.
  fix IH 1. intros [|a [|b [|c l]]]; [exact H0|apply H1|apply H2|apply H3; apply IH].
Qed.

Lemma b64value_b64char v : isSextet v -> b64value (b64char v) = Some v.
Proof.
  unfold isSextet, b64char. intros Hv.
  repeat case_if; unfold b64value; repeat case_if; try lia; f_equal; lia.
Qed.

Lemma b64char_plain v :
  isSextet v -> isAsciiWhitespace (b64char v) = false /\ (b64char v =? 61) = false.
Proof.
  unfold isSextet, b64char. intros Hv.
  repeat case_if; unfold isAsciiWhitespace; lia.
Qed.

Lemma encodeGroups_split bytes :
  encodeGroups bytes = (map b64char (encodeValues bytes) ++ encodePadding bytes)%list.
Proof.
  induction bytes as [| | |a b c l IH] using list_ind3; try reflexivity.
  simpl. now rewrite IH.
Qed.

Lemma encodeValues_sextets bytes :
  Forall isByte bytes -> Forall isSextet (encodeValues bytes).
Proof.
  unfold isByte, isSextet.
  induction bytes as [| | |a b c l IH] using list_ind3; intros H; simpl.
  - constructor.
  - inversion H; subst. repeat (constructor; [euclid|]). constructor.
  - inversion H as [|? ? ? H']; subst. inversion H'; subst.
    repeat (constructor; [euclid|]). constructor.
  - inversion H as [|? ? ? H']; subst. inversion H' as [|? ? ? H'']; subst.
    inversion H''; subst. repeat (constructor; [euclid|]). auto.
Qed.

Lemma decodeGroups_encodeValues bytes :
  Forall isByte bytes -> decodeGroups (encodeValues bytes) = bytes.
Proof.
  unfold isByte.
  induction bytes as [| | |a b c l IH] using list_ind3; intros H; simpl.
  - reflexivity.
  - inversion H; subst. f_equal. euclid.
  - inversion H as [|? ? ? H']; subst. inversion H'; subst. repeat f_equal; euclid.
  - inversion H as [|? ? ? H']; subst. inversion H' as [|? ? ? H'']; subst.
    inversion H''; subst. rewrite IH by assumption.
    f_equal; [euclid|]. f_equal; [euclid|]. f_equal. euclid.
Qed.

Lemma sextets_b64char vs :
  Forall isSextet vs -> sextets (map b64char vs) = Some vs.
Proof.
  induction 1 as [|v vs Hv _ IH]; simpl; [reflexivity|].
  now rewrite b64value_b64char, IH.
Qed.

Lemma encodePadding_cases bytes :
  encodePadding bytes = [] \/ encodePadding bytes = [61] \/ encodePadding bytes = [61; 61].
Proof. induction bytes using list_ind3; simpl; auto. Qed.

Lemma encodeGroups_length bytes :
  exists k : nat, length (encodeGroups bytes) = (4 * k)%nat.
Proof.
  induction bytes as [| | |a b c l [k IH]] using list_ind3.
  - now exists 0%nat.
  - now exists 1%nat.
  - now exists 1%nat.
  - exists (S k). simpl. rewrite IH. lia.
Qed.

Lemma encodeValues_length bytes :
  Z.of_nat (length (encodeValues bytes)) mod 4 <> 1.
Proof.
  assert (H : exists k r : nat,
             length (encodeValues bytes) = (4 * k + r)%nat /\ (r = 0 \/ r = 2 \/ r = 3)%nat).
  { induction bytes as [| | |a b c l (k & r & IH & Hr)] using list_ind3.
    - exists 0%nat, 0%nat. simpl. lia.
    - exists 0%nat, 2%nat. simpl. lia.
    - exists 0%nat, 3%nat. simpl. lia.
    - exists (S k), r. simpl. rewrite IH. lia. }
  destruct H as (k & r & -> & Hr). euclid.
Qed.

Lemma filter_plain (l : jsstring) :
  Forall (fun c => isAsciiWhitespace c = false) l ->
  List.filter (fun c => negb (isAsciiWhitespace c)) l = l.
Proof.
  induction 1 as [|c l Hc _ IH]; simpl; [reflexivity|]. now rewrite Hc, IH.
Qed.

Lemma encodeGroups_plain bytes :
  Forall isByte bytes ->
  Forall (fun c => isAsciiWhitespace c = false) (encodeGroups bytes).
Proof.
  intros Hb. rewrite encodeGroups_split. apply Forall_app. split.
  - apply Forall_map. eapply Forall_impl; [apply encodeValues_sextets, Hb|].
    intros v Hv. simpl. now apply b64char_plain.
  - destruct (encodePadding_cases bytes) as [->|[->| ->]]; repeat constructor.
Qed.

Lemma stripPadding_encoded vs pad :
  Forall isSextet vs ->
  pad = [] \/ pad = [61] \/ pad = [61; 61] ->
  (exists k : nat, length (map b64char vs ++ pad) = (4 * k)%nat) ->
  stripPadding (map b64char vs ++ pad) = map b64char vs.
Proof.
  intros Hvs Hpad [k Hk]. unfold stripPadding.
  replace (Z.of_nat (length (map b64char vs ++ pad)) mod 4 =? 0) with true
    by (rewrite Hk; euclid).
  assert (Hrev : Forall (fun c => (c =? 61) = false) (rev (map b64char vs))).
  { apply Forall_rev, Forall_map. eapply Forall_impl; [exact Hvs|].
    intros v Hv. simpl. now apply b64char_plain. }
  rewrite rev_app_distr.
  destruct Hpad as [->|[->| ->]]; simpl.
  - destruct (rev (map b64char vs)) as [|c1 r1] eqn:E.
    + now rewrite app_nil_r.
    + inversion Hrev as [|? ? Hc1 _]; subst. now rewrite Hc1, app_nil_r.
  - destruct (rev (map b64char vs)) as [|c2 r2] eqn:E.
    + apply (f_equal (@rev Z)) in E. now rewrite rev_involutive in E.
    + inversion Hrev as [|? ? Hc2 _]; subst. rewrite Hc2, <- E. apply rev_involutive.
  - apply rev_involutive.
Qed.

(** [atob] undoes [btoa] on every string of bytes. *)
Lemma atob_encodeGroups bytes :
  Forall isByte bytes -> atob (encodeGroups bytes) = Some bytes.
Proof.
  intros Hb. unfold atob.
  rewrite filter_plain by now apply encodeGroups_plain.
  pose proof (encodeValues_sextets bytes Hb) as Hvs.
  rewrite encodeGroups_split, stripPadding_encoded;
    [|assumption|apply encodePadding_cases|rewrite <- encodeGroups_split; apply encodeGroups_length].
  rewrite length_map.
  replace (Z.of_nat (length (encodeValues bytes)) mod 4 =? 1) with false
    by (pose proof (encodeValues_length bytes); lia).
  now rewrite sextets_b64char, decodeGroups_encodeValues.
Qed.

Lemma btoa_bytes bytes :
  Forall isByte bytes -> btoa bytes = Some (encodeGroups bytes).
Proof.
  intros Hb. unfold btoa.
  replace (forallb _ bytes) with true; [reflexivity|].
  symmetry. apply forallb_forall. intros b Hin.
  rewrite List.Forall_forall in Hb. specialize (Hb b Hin). unfold isByte in Hb. lia.
Qed.

(** Settle the next test of the goal by arithmetic. *)
Ltac settle_if :=
  match goal with
  | |- context [if ?b then _ else _] =>
      first [ replace b with true by (symmetry; euclid)
            | replace b with false by (symmetry; euclid) ]
  end.

Lemma utf8_bytes_isByte cp : isScalar cp -> Forall isByte (utf8_bytes cp).
Proof.
  unfold isScalar, isByte, utf8_bytes. intros [Hr Hs].
  repeat case_if; repeat (constructor; [euclid|]); constructor.
Qed.

(** One code point: the decoder reads back what the encoder wrote. *)
Lemma utf8_decode_bytes cp rest :
  isScalar cp -> utf8_decode None (utf8_bytes cp ++ rest) = cp :: utf8_decode None rest.
Proof.
  unfold isScalar, utf8_bytes. intros [Hr Hs].
  destruct (Z.leb_spec cp 127) as [H1|H1];
    [|destruct (Z.leb_spec cp 2047) as [H2|H2];
      [|destruct (Z.leb_spec cp 65535) as [H3|H3]]];
    cbn [app utf8_decode]; unfold leadByte; cbn [codePoint needed lower upper].
  - now settle_if.
  - do 2 settle_if. cbn [codePoint needed lower upper]. do 2 settle_if. f_equal. euclid.
  - do 3 settle_if. cbn [codePoint needed lower upper].
    assert (Hlo : (if 224 + cp / 4096 =? 224 then 160 else 128) <= 128 + cp / 64 mod 64)
      by (case_if; euclid).
    assert (Hhi : 128 + cp / 64 mod 64 <= (if 224 + cp / 4096 =? 237 then 159 else 191))
      by (case_if; euclid).
    replace ((_ <=? 128 + cp / 64 mod 64) && (128 + cp / 64 mod 64 <=? _)) with true by lia.
    settle_if. cbn [codePoint needed lower upper]. do 2 settle_if. f_equal. euclid.
  - do 4 settle_if. cbn [codePoint needed lower upper].
    assert (Hlo : (if 240 + cp / 262144 =? 240 then 144 else 128) <= 128 + cp / 4096 mod 64)
      by (case_if; euclid).
    assert (Hhi : 128 + cp / 4096 mod 64 <= (if 240 + cp / 262144 =? 244 then 143 else 191))
      by (case_if; euclid).
    replace ((_ <=? 128 + cp / 4096 mod 64) && (128 + cp / 4096 mod 64 <=? _)) with true by lia.
    settle_if. cbn [codePoint needed lower upper]. do 2 settle_if.
    cbn [codePoint needed lower upper]. do 2 settle_if. f_equal. euclid.
Qed.

Lemma utf8_decode_encode cps :
  Forall isScalar cps -> utf8_decode None (concat (map utf8_bytes cps)) = cps.
Proof.
  induction 1 as [|cp cps Hcp _ IH]; simpl; [reflexivity|].
  now rewrite utf8_decode_bytes, IH.
Qed.

Lemma fromCodePoints_cons cp cps :
  fromCodePoints (cp :: cps) = fromCodePoint cp ++ fromCodePoints cps.
Proof. reflexivity. Qed.

(** A well-formed string is the UTF-16 form of its code points, which
    are scalar values. *)
Lemma toCodePoints_wellFormed s :
  isWellFormed s = true ->
  Forall isScalar (toCodePoints s) /\ fromCodePoints (toCodePoints s) = s.
Proof.
  remember (length s) as n eqn:Hn. revert s Hn.
  induction n as [n IH] using lt_wf_ind. intros s Hn Hwf.
  destruct s as [|c s']; [split; [constructor|reflexivity]|].
  cbn [isWellFormed toCodePoints] in *.
  destruct (isLead c) eqn:Hc.
  - destruct s' as [|d s'']; [discriminate|].
    apply andb_true_iff in Hwf. destruct Hwf as [Hd Hwf]. rewrite Hd.
    destruct (IH (length s'')) with (s := s'') as [Hs Hr];
      [subst n; simpl; lia|reflexivity|assumption|].
    unfold isLead, isTrail in Hc, Hd. split.
    + constructor; [unfold isScalar; lia|assumption].
    + rewrite fromCodePoints_cons, Hr. unfold fromCodePoint.
      replace (_ <? 65536) with false by lia. simpl. f_equal; [euclid|f_equal; euclid].
  - apply andb_true_iff in Hwf. destruct Hwf as [Hc' Hwf].
    apply andb_true_iff in Hc'. destruct Hc' as [Hu Ht].
    apply negb_true_iff in Ht. rewrite Ht.
    destruct (IH (length s')) with (s := s') as [Hs Hr];
      [subst n; simpl; lia|reflexivity|assumption|].
    unfold isLead, isTrail, isCodeUnit in Hc, Ht, Hu. split.
    + constructor; [unfold isScalar; lia|assumption].
    + rewrite fromCodePoints_cons, Hr. unfold fromCodePoint.
      replace (c <? 65536) with true by lia. reflexivity.
Qed.

Lemma toCodePoints_head s :
  isWellFormed s = true -> head s <> Some 65279 -> head (toCodePoints s) <> Some 65279.
Proof.
  destruct s as [|c s']; [easy|]. cbn [isWellFormed toCodePoints head].
  intros Hwf Hc. destruct (isLead c) eqn:Hl.
  - destruct s' as [|d s'']; [discriminate|].
    apply andb_true_iff in Hwf. destruct Hwf as [Hd _]. rewrite Hd. simpl.
    unfold isLead, isTrail in Hl, Hd. intros [= H]. lia.
  - apply andb_true_iff in Hwf. destruct Hwf as [Hc' _].
    apply andb_true_iff in Hc'. destruct Hc' as [_ Ht].
    apply negb_true_iff in Ht. now rewrite Ht.
Qed.

Lemma TextDecoder_decode_encode s :
  isWellFormed s = true -> head s <> Some 65279 ->
  TextDecoder_decode (TextEncoder_encode s) = s.
Proof.
  intros Hwf Hbom. destruct (toCodePoints_wellFormed s Hwf) as [Hs Hr].
  pose proof (toCodePoints_head s Hwf Hbom) as Hh.
  unfold TextDecoder_decode, TextEncoder_encode. rewrite utf8_decode_encode by assumption.
  destruct (toCodePoints s) as [|cp cps]; [now rewrite <- Hr|].
  simpl in Hh. replace (cp =? 65279) with false; [assumption|].
  symmetry. apply Z.eqb_neq. congruence.
Qed.

Lemma TextEncoder_encode_isByte s :
  isWellFormed s = true -> Forall isByte (TextEncoder_encode s).
Proof.
  intros Hwf. destruct (toCodePoints_wellFormed s Hwf) as [Hs _].
  unfold TextEncoder_encode. induction Hs as [|cp cps Hcp _ IH]; simpl; [constructor|].
  apply Forall_app. split; [now apply utf8_bytes_isByte|assumption].
Qed.

Lemma map_mod_bytes m bytes :
  256 <= m -> Forall isByte bytes -> map (fun b => b mod m) bytes = bytes.
Proof.
  intros Hm. induction 1 as [|b bytes Hb _ IH]; simpl; [reflexivity|].
  rewrite IH. f_equal. unfold isByte in Hb. apply Z.mod_small. lia.
Qed.

(** C8. The envelope round-trips: for the text [s] of a document, with
    any Unicode in it, [utf8ToBase64] returns an encoding and
    [base64ToUtf8] of that encoding is exactly [s]. The text that
    [JSON.stringify] makes of a document is well-formed UTF-16 (a lone
    surrogate is written as an escape) and starts with a brace, not
    with a byte order mark. *)
Theorem envelope_round_trip (s : jsstring) :
  isWellFormed s = true -> head s <> Some 65279 ->
  exists base64, utf8ToBase64 s = Some base64 /\ base64ToUtf8 base64 = Some s.
Proof.
  intros Hwf Hbom. pose proof (TextEncoder_encode_isByte s Hwf) as Hb.
  exists (encodeGroups (TextEncoder_encode s)). split.
  - unfold utf8ToBase64. rewrite map_mod_bytes by (assumption || lia).
    now rewrite btoa_bytes.
  - unfold base64ToUtf8. rewrite atob_encodeGroups by assumption.
    rewrite map_mod_bytes by (assumption || lia).
    now rewrite TextDecoder_decode_encode.
Qed.

Lemma envelope_round_trip_witness :
  exists base64, utf8ToBase64 Samples.unicodeText = Some base64
                 /\ base64ToUtf8 base64 = Some Samples.unicodeText.
Proof.
  apply (envelope_round_trip Samples.unicodeText); [reflexivity|].
  simpl. intros [= H].
Defined.

(** Outside the texts of documents the envelope is not the identity: a
    byte order mark at the start is dropped and a lone surrogate comes
    back as U+FFFD. *)
Example envelope_drops_byte_order_mark :
  utf8ToBase64 [65279; 97] = Some (lit "77u/YQ==") /\
  base64ToUtf8 (lit "77u/YQ==") = Some [97].
Proof. split; reflexivity. Qed.

Example envelope_replaces_lone_surrogate :
  utf8ToBase64 [55357] = Some (lit "77+9") /\ base64ToUtf8 (lit "77+9") = Some [65533].
Proof. split; reflexivity. Qed.
End CodecFacts.

(** ** The client *)

Module EngineFacts.
Import Merge Codec Engine Notions.
Local Open Scope list_scope.

Lemma prefix_append (n s : string) : String.prefix n (n ++ s)%string = true.
Proof.
  induction n as [|a n IH]; simpl; [now destruct s|].
  destruct (ascii_dec a a); [assumption|congruence].
Qed.

Lemma includes_prefix (s n : string) : String.prefix n s = true -> includes s n = true.
Proof. intros H. destruct s; cbn [includes]; now rewrite H. Qed.

Lemma includes_append (p n s : string) : includes (p ++ n ++ s)%string n = true.
Proof.
  induction p as [|a p IH].
  - change (includes (n ++ s)%string n = true). apply includes_prefix, prefix_append.
  - change (includes (String a (p ++ n ++ s)%string) n = true). cbn [includes]. rewrite IH. apply orb_true_r.
Qed.

Lemma putOutcome_401 statusText body :
  putOutcome (Http 401 statusText body)
  = inr ("GitHub commit failed: 401 " ++ body_message body)%string.
Proof. reflexivity. Qed.

Lemma handleError_invalid_token error st :
  nonempty error = true -> includes error "401" = true ->
  handleError error st
  = updateConnectionStatus ErrorMode
      (set_isConnected false
         (showError "Invalid GitHub token. Please reconfigure in Settings." st)).
Proof. intros Hne Hinc. unfold handleError. now rewrite Hne, Hinc. Qed.

Lemma handleError_401 message st :
  handleError ("GitHub commit failed: 401 " ++ message)%string st
  = updateConnectionStatus ErrorMode
      (set_isConnected false
         (showError "Invalid GitHub token. Please reconfigure in Settings." st)).
Proof.
  apply handleError_invalid_token; [reflexivity|].
  apply (includes_append "GitHub commit failed: " "401" (" " ++ message)).
Qed.

#[local] Arguments putOutcome : simpl never.
#[local] Arguments handleError : simpl never.
#[local] Arguments getToken : simpl never.


Lemma putData_eq data commitMessage st :
  putData data commitMessage st
  = (hd (Rejected "Failed to fetch") (net st),
     set_net (tl (net st))
       (set_sent (sent st ++ [PUT (stamp (clock st) (heap st data)) commitMessage
                                  (shaField (currentSHA st))])
          (set_heap (alter (stamp (clock st)) data (heap st))
             (set_clock (clock st + 1) st)))).
Proof.
  destruct st as [cfg q conn sha stor hp nx clk tst ind nt snt].
  unfold putData, fetch, Date_now. cbn. rewrite fn_lookup_alter.
  destruct nt; reflexivity.
Qed.

Lemma handleError_frame error st :
  let st' := handleError error st in
  config st' = config st /\ syncQueue st' = syncQueue st /\
  currentSHA st' = currentSHA st /\ storage st' = storage st /\
  heap st' = heap st /\ next st' = next st /\ clock st' = clock st /\
  net st' = net st /\ sent st' = sent st /\ indicator st' = ErrorMode.
Proof.
  unfold handleError. repeat match goal with |- context [if ?b then _ else _] => destruct b end;
    cbn; tauto.
Qed.

Lemma loadLocalData_frame st :
  let st' := snd (loadLocalData st) in
  config st' = config st /\ syncQueue st' = syncQueue st /\
  isConnected st' = isConnected st /\ storage st' = storage st /\
  heap st' = heap st /\ next st' = next st /\ net st' = net st /\
  sent st' = sent st /\ toasts st' = toasts st.
Proof.
  unfold loadLocalData. destruct (tracker_data (storage st)); cbn; tauto.
Qed.

(** [fetchData] makes no object, touches neither the configuration nor
    the queue, and uses at most one reply. *)
Lemma fetchData_frame st :
  let st' := snd (fetchData st) in
  config st' = config st /\ syncQueue st' = syncQueue st /\
  heap st' = heap st /\ next st' = next st /\
  (length (net st') <= length (net st))%nat.
Proof.
  unfold fetchData. destruct (noToken (getToken st) || negb (isConnected st)).
  - pose proof (loadLocalData_frame st) as H. cbn in H. cbn.
    destruct H as (-> & -> & _ & _ & -> & -> & -> & _). auto.
  - assert (Hlocal : forall error s,
      config s = config st -> syncQueue s = syncQueue st -> heap s = heap st ->
      next s = next st -> (length (net s) <= length (net st))%nat ->
      let st' := snd (loadLocalData (handleError error s)) in
      config st' = config st /\ syncQueue st' = syncQueue st /\
      heap st' = heap st /\ next st' = next st /\
      (length (net st') <= length (net st))%nat).
    { intros error s H1 H2 H3 H4 H5.
      pose proof (loadLocalData_frame (handleError error s)) as H. cbn in H.
      pose proof (handleError_frame error s) as H'. cbn in H'. cbn.
      destruct H as (-> & -> & _ & _ & -> & -> & -> & _).
      destruct H' as (-> & -> & _ & _ & -> & -> & _ & -> & _). auto. }
    unfold fetch. cbn.
    destruct (net st) as [|[error|status statusText body] rest] eqn:Hnet; cbn.
    + apply Hlocal; cbn; rewrite ?Hnet; auto.
    + apply Hlocal; cbn; rewrite ?Hnet; cbn; auto.
    + destruct (status =? 404); [cbn; auto 10|].
      destruct (negb (ok status)); [apply Hlocal; cbn; auto|].
      destruct (body_content body); [apply Hlocal; cbn; auto|cbn; auto 10].
Qed.

(** The merge makes one object, at the first free location, unless the
    remote data cannot be merged. *)
Lemma fetchAndMerge_frame data st :
  let st' := snd (fetchAndMerge data st) in
  config st' = config st /\ syncQueue st' = syncQueue st /\
  (length (net st') <= length (net st))%nat /\
  match fst (fetchAndMerge data st) with
  | inr merged =>
      merged = next st /\ next st' = S (next st) /\
      (forall l, l <> next st -> heap st' l = heap st l)
  | inl _ => next st' = next st /\ heap st' = heap st
  end.
Proof.
  unfold fetchAndMerge. pose proof (fetchData_frame st) as H. cbn in H.
  destruct (fetchData st) as [[error|remote] st1]; cbn in *;
    destruct H as (-> & -> & -> & -> & Hnet); repeat split; auto.
  intros l Hl. now apply fn_lookup_insert_ne.
Qed.

(** The five ways through [commitData]. *)
Lemma commitData_offline fuel data commitMessage st :
  offline st = true ->
  commitData (S fuel) data commitMessage st
  = Some (Queued None,
          let st := addToSyncQueue "update" data commitMessage st in
          saveLocalData (Doc (heap st data)) st).
Proof. unfold offline. intros H. cbn [commitData]. now rewrite H. Qed.

Lemma commitData_success fuel data commitMessage st sha commit :
  offline st = false ->
  putOutcome (fst (putData data commitMessage st)) = inl (sha, commit) ->
  commitData (S fuel) data commitMessage st
  = Some (Committed commit,
          let st := set_currentSHA (Some sha) (snd (putData data commitMessage st)) in
          saveLocalData (Doc (heap st data)) st).
Proof.
  unfold offline. intros H Hput. cbn [commitData]. rewrite H.
  destruct (putData data commitMessage st) as [reply st1]. cbn in Hput. now rewrite Hput.
Qed.

Lemma commitData_failure fuel data commitMessage st error :
  offline st = false ->
  putOutcome (fst (putData data commitMessage st)) = inr error ->
  String.eqb error "CONFLICT" = false ->
  commitData (S fuel) data commitMessage st
  = Some (Queued (Some error),
          let st := handleError error (snd (putData data commitMessage st)) in
          let st := addToSyncQueue "update" data commitMessage st in
          saveLocalData (Doc (heap st data)) st).
Proof.
  unfold offline. intros H Hput Herr. cbn [commitData]. rewrite H.
  destruct (putData data commitMessage st) as [reply st1]. cbn in Hput.
  now rewrite Hput, Herr.
Qed.

Lemma commitData_conflict fuel data commitMessage st :
  offline st = false ->
  conflicted (fst (putData data commitMessage st)) = true ->
  commitData (S fuel) data commitMessage st
  = handleConflict (commitData fuel) data commitMessage
      (snd (putData data commitMessage st)).
Proof.
  unfold offline. intros H Hput. cbn [commitData]. rewrite H. unfold conflicted in Hput.
  destruct (putData data commitMessage st) as [reply st1]. cbn in *.
  destruct (putOutcome reply) as [[sha commit]|error]; [discriminate|].
  now rewrite Hput.
Qed.

Lemma commitData_conflict_merged fuel data commitMessage st merged :
  offline st = false ->
  conflicted (fst (putData data commitMessage st)) = true ->
  let st1 := snd (putData data commitMessage st) in
  fst (fetchAndMerge data st1) = inr merged ->
  commitData (S fuel) data commitMessage st
  = commitData fuel merged (commitMessage ++ " (merged)")%string
      (snd (fetchAndMerge data st1)).
Proof.
  intros H Hput st1 Hm. rewrite commitData_conflict by assumption.
  fold st1. unfold handleConflict.
  destruct (fetchAndMerge data st1) as [m st2]. cbn in Hm. now subst m.
Qed.

Lemma commitData_conflict_foreign fuel data commitMessage st error :
  offline st = false ->
  conflicted (fst (putData data commitMessage st)) = true ->
  let st1 := snd (putData data commitMessage st) in
  fst (fetchAndMerge data st1) = inl error ->
  commitData (S fuel) data commitMessage st
  = Some (Conflict error, snd (fetchAndMerge data st1)).
Proof.
  intros H Hput st1 Hm. rewrite commitData_conflict by assumption.
  fold st1. unfold handleConflict.
  destruct (fetchAndMerge data st1) as [m st2]. cbn in Hm. now subst m.
Qed.

Lemma parseQueue_frame text st :
  let st' := snd (parseQueue text st) in
  config st' = config st /\ storage st' = storage st /\ clock st' = clock st /\
  sent st' = sent st /\ net st' = net st /\ toasts st' = toasts st /\
  indicator st' = indicator st.
Proof.
  revert st. induction text as [|o text IH]; intros st; simpl; [tauto|].
  specialize (IH (snd (alloc (op_data o) st))).
  destruct (parseQueue text _) as [q st']. simpl in *. exact IH.
Qed.

Lemma constructor_frame page :
  let st := constructor page in
  config st = loadConfig (storage page) /\ isConnected st = false /\
  currentSHA st = None /\ storage st = storage page /\ clock st = clock page /\
  sent st = sent page /\ net st = net page /\ toasts st = toasts page /\
  indicator st = indicator page.
Proof.
  unfold constructor, loadSyncQueue. simpl.
  destruct (sync_queue (storage page)) as [text|]; simpl; [|tauto].
  pose proof (parseQueue_frame text (set_config (loadConfig (storage page)) page)) as H.
  destruct (parseQueue text _) as [q st']. simpl in *. tauto.
Qed.

(** C9. A client with no credential configured and no local snapshot:
    started and asked to load, it returns the seed document (version
    1.0.0, the fixed roster of seven users, no tasks, no requests, no
    history, stamped with the time of the call), it is not connected,
    and it has sent nothing. *)
Theorem load_unconfigured_gives_seed page :
  token (loadConfig (storage page)) = [] ->
  tracker_data (storage page) = None ->
  let st := snd (initialize (constructor page)) in
  fst (initialize (constructor page)) = false /\
  fst (fetchData st) = Doc
    {| version := "1.0.0";
       lastUpdated := clock page;
       users := [ mkUser 1 "Liam" "Tech Lead";
                  mkUser 2 "Trân" "Sales Lead";
                  mkUser 3 "Taddy" "CEO";
                  mkUser 4 "Hiếu" "Software Lead";
                  mkUser 5 "Vỹ" "UX Lead";
                  mkUser 6 "Intern Thân" "Tech Intern";
                  mkUser 7 "Intern Trân" "Tech Intern" ];
       tasks := [];
       requests := [];
       history := [] |} /\
  isConnected (snd (fetchData st)) = false /\
  sent (snd (fetchData st)) = sent page /\
  tracker_data (storage (snd (fetchData st))) = None.
Proof.
  intros Htoken Hdata.
  destruct (constructor_frame page) as (Hc & Hi & _ & Hs & Hk & Hsent & _).
  assert (Hno : noToken (getToken (constructor page)) = true)
    by (unfold getToken; rewrite Hc, Htoken; reflexivity).
  unfold initialize. rewrite Hno. simpl.
  unfold fetchData. rewrite Hno. simpl.
  unfold loadLocalData. rewrite Hs, Hdata. simpl.
  rewrite Hk, Hi, Hsent, Hs. auto.
Qed.

Lemma load_unconfigured_gives_seed_witness :
  (exists seed,
     fst (fetchData (snd (initialize (constructor Samples.freshPage)))) = Doc seed
     /\ version seed = "1.0.0" /\ tasks seed = [])
  /\ isConnected (snd (fetchData (snd (initialize (constructor Samples.freshPage))))) = false.
Proof.
  destruct (load_unconfigured_gives_seed Samples.freshPage eq_refl eq_refl)
    as (_ & Hdoc & Hconn & _).
  split; [|exact Hconn]. eexists. split; [exact Hdoc|]. split; reflexivity.
Defined.


Lemma startsWith_In s prefix :
  startsWith s prefix = true -> forall c, In c prefix -> In c s.
Proof.
  revert s. induction prefix as [|p prefix IH]; intros s H c Hc; [destruct Hc|].
  destruct s as [|d s]; [discriminate|]. simpl in H.
  apply andb_true_iff in H. destruct H as [Hd H]. apply Z.eqb_eq in Hd. subst d.
  destruct Hc as [->|Hc]; [now left|right; eauto].
Qed.

Lemma b64char_no_underscore v : isSextet v -> b64char v <> 95.
Proof. unfold isSextet, b64char. intros Hv. repeat CodecFacts.case_if; lia. Qed.

Lemma encodeGroups_no_underscore bytes :
  Forall isByte bytes -> ~ In 95 (encodeGroups bytes).
Proof.
  intros Hb Hin. rewrite CodecFacts.encodeGroups_split in Hin.
  apply in_app_or in Hin. destruct Hin as [Hin|Hin].
  - apply in_map_iff in Hin. destruct Hin as (v & Hv & Hin).
    pose proof (CodecFacts.encodeValues_sextets bytes Hb) as Hs.
    rewrite List.Forall_forall in Hs. specialize (Hs v Hin).
    now apply (b64char_no_underscore v).
  - destruct (CodecFacts.encodePadding_cases bytes) as [E|[E|E]]; rewrite E in Hin;
      simpl in Hin; intuition lia.
Qed.

(** What [saveConfig] writes is read back by the next instance as the
    token that was given: the stored value is base64, which has no
    underscore and so neither prefix, and [atob] undoes [btoa]. *)
Lemma getToken_after_reload t page :
  t <> [] -> Forall isByte t ->
  fst (saveConfig (Samples.tokenOnly t) page) = Returned /\
  getToken (constructor (snd (saveConfig (Samples.tokenOnly t) page))) = Some t.
Proof.
  intros Ht Hb. unfold saveConfig. simpl.
  assert (Htruthy : truthy t = true) by (destruct t; [congruence|reflexivity]).
  rewrite Htruthy, CodecFacts.btoa_bytes by assumption. simpl. split; [reflexivity|].
  match goal with |- getToken (constructor ?st) = _ =>
    destruct (constructor_frame st) as (Hc & _) end.
  unfold getToken. rewrite Hc. simpl.
  assert (Hne : truthy (encodeGroups t) = true).
  { destruct t as [|a [|b [|c t]]]; [congruence|reflexivity..]. }
  rewrite Hne. simpl.
  assert (Hpre : forall p, In 95 p -> startsWith (encodeGroups t) p = false).
  { intros p Hp. destruct (startsWith (encodeGroups t) p) eqn:E; [|reflexivity].
    exfalso. eapply encodeGroups_no_underscore; [eassumption|].
    eapply startsWith_In; eassumption. }
  rewrite !Hpre by (simpl; tauto). simpl.
  now rewrite CodecFacts.atob_encodeGroups.
Qed.

(** In the session that saved it, a token with one of the two prefixes
    is returned as it is. *)
Lemma getToken_raw_prefixed t st :
  startsWith t (lit "ghp_") || startsWith t (lit "github_pat_") = true ->
  getToken (snd (saveConfig (Samples.tokenOnly t) st)) = Some t.
Proof.
  intros Hp.
  assert (Ht : truthy t = true).
  { destruct t; [|reflexivity]. discriminate. }
  assert (Hcfg : token (config (snd (saveConfig (Samples.tokenOnly t) st))) = t)
    by (unfold saveConfig; cbn; rewrite Ht; now destruct (btoa t)).
  unfold getToken. rewrite Hcfg, Ht. cbn [negb]. now rewrite Hp.
Qed.

(** C10, at the input on which the code and the claim part: in the
    instance that saved it, a token without the [ghp_] or [github_pat_]
    prefix that reads as base64 is decoded, although it was never
    encoded. *)
Theorem getToken_decodes_raw_token :
  let saved := saveConfig (Samples.tokenOnly (lit "abcd")) Samples.freshPage in
  fst saved = Returned /\
  token (config (snd saved)) = lit "abcd" /\
  option_map token (github_config (storage (snd saved))) = Some (lit "YWJjZA==") /\
  getToken (snd saved) = Some [105; 183; 29] /\
  getToken (constructor (snd saved)) = Some (lit "abcd").
Proof. repeat split. Qed.









(** C4, as the code has it. A save that the remote answers with 401
    flips the client to not connected and the indicator to error, shows
    the invalid-token message, keeps the document locally, and also
    puts the operation on the queue; the result is queued. *)
Theorem save_401_is_queued fuel st data commitMessage statusText body :
  offline st = false ->
  (exists rest, net st = Http 401 statusText body :: rest) ->
  exists st',
    commitData (S fuel) data commitMessage st
    = Some (Queued (Some ("GitHub commit failed: 401 " ++ body_message body)%string), st') /\
    isConnected st' = false /\
    indicator st' = ErrorMode /\
    toasts st' = toasts st ++ ["Invalid GitHub token. Please reconfigure in Settings."] /\
    syncQueue st' = syncQueue st ++ [mkOp "update" data commitMessage (clock st + 1)] /\
    heap st' data = stamp (clock st) (heap st data) /\
    tracker_data (storage st') = Some (Doc (heap st' data)).
Proof.
  intros Hoff [rest Hnet].
  assert (Hput : putOutcome (fst (putData data commitMessage st))
                 = inr ("GitHub commit failed: 401 " ++ body_message body)%string)
    by (rewrite putData_eq, Hnet; reflexivity).
  erewrite commitData_failure; [|eassumption..|reflexivity].
  rewrite handleError_401, putData_eq.
  eexists. split; [reflexivity|]. cbn.
  repeat split; try reflexivity. apply fn_lookup_alter.
Qed.

Lemma save_401_is_queued_witness :
  exists st',
    commitData 1 0%nat "Edit task"
      (Samples.connected [Samples.refused 401 "Unauthorized" "Bad credentials"])
    = Some (Queued (Some "GitHub commit failed: 401 Bad credentials"), st') /\
    isConnected st' = false /\
    indicator st' = ErrorMode /\
    toasts st' = ["Invalid GitHub token. Please reconfigure in Settings."] /\
    syncQueue st' = [mkOp "update" 0%nat "Edit task" 1001] /\
    heap st' 0%nat = stamp 1000 Samples.localDoc /\
    tracker_data (storage st') = Some (Doc (heap st' 0%nat)).
Proof.
  apply (save_401_is_queued 0
           (Samples.connected [Samples.refused 401 "Unauthorized" "Bad credentials"])
           0%nat "Edit task" "Unauthorized"
           (mkBody "Bad credentials" "" (Garbled "") "" Samples.noOwner)).
  - reflexivity.
  - exists []. reflexivity.
Defined.

(** C4 as stated fails: the operation refused with 401 is on the queue
    afterwards. *)
Lemma save_401_enqueues :
  exists result st',
    commitData 1 0%nat "Edit task"
      (Samples.connected [Samples.refused 401 "Unauthorized" "Bad credentials"])
    = Some (result, st') /\
    syncQueue (Samples.connected [Samples.refused 401 "Unauthorized" "Bad credentials"]) = [] /\
    map (fun o => (op_data o, op_message o)) (syncQueue st') = [(0%nat, "Edit task")] /\
    option_map (map (@op_message Document)) (sync_queue (storage st')) = Some ["Edit task"].
Proof. eexists _, _. split; [vm_compute; reflexivity|]. repeat split. Qed.

(** C7, at the input on which the code and the claim part: of three
    queued operations the first is committed and the second is refused;
    the loop stops there, but the failed save has put the second
    operation on the queue once more, behind the third. *)
Theorem flush_requeues_failed_operation :
  exists st',
    processSyncQueue 4
      (Samples.pending [Samples.committed "sha1";
                        Samples.refused 500 "Internal Server Error" "boom"])
    = Some (mkFlush 1 1 (Some 3%nat), st') /\
    map (fun o => (op_data o, op_message o)) (syncQueue st')
    = [(2%nat, "B"); (3%nat, "C"); (2%nat, "B")] /\
    map method (sent st') = ["PUT"; "PUT"].
Proof. eexists. split; [vm_compute; reflexivity|]. split; reflexivity. Qed.


#[local] Arguments putData : simpl never.
#[local] Arguments fetchAndMerge : simpl never.
#[local] Arguments fetchData : simpl never.

(** C2, as the code has it. A save answered by a conflict fetches the
    remote data and merges it with the caller's document into a new
    object; if the remote data cannot be merged the result is the
    conflict tag. Otherwise the merged object is saved under the message
    with [ (merged)] appended, and the result of the outer save is the
    result of this inner save, which is a save like any other. If it
    succeeds the merged document is kept locally and nothing is queued;
    if the client is offline by then, or the write fails without a
    conflict, the merged document is kept locally and it is the merged
    document, under the amended message, that goes on the queue; if the
    write conflicts again, a further merge and a further save follow. *)
Theorem conflict_retries_with_merged fuel st data commitMessage :
  offline st = false ->
  conflicted (fst (putData data commitMessage st)) = true ->
  let st1 := snd (putData data commitMessage st) in
  let st2 := snd (fetchAndMerge data st1) in
  let amended := (commitMessage ++ " (merged)")%string in
  let outer := commitData (S (S fuel)) data commitMessage st in
  (forall error,
   fst (fetchAndMerge data st1) = inl error -> outer = Some (Conflict error, st2)) /\
  (forall merged,
   fst (fetchAndMerge data st1) = inr merged ->
   outer = commitData (S fuel) merged amended st2 /\
   merged = next st /\
   (exists remote,
      fst (fetchData st1) = Doc remote /\
      heap st2 merged
      = mergeData (clock (snd (fetchData st1))) remote (stamp (clock st) (heap st data))) /\
   (offline st2 = true ->
    exists st', outer = Some (Queued None, st') /\
      syncQueue st' = syncQueue st ++ [mkOp "update" merged amended (clock st2)] /\
      tracker_data (storage st') = Some (Doc (heap st2 merged))) /\
   (offline st2 = false ->
    forall sha commit,
    putOutcome (fst (putData merged amended st2)) = inl (sha, commit) ->
    exists st', outer = Some (Committed commit, st') /\
      syncQueue st' = syncQueue st /\
      tracker_data (storage st') = Some (Doc (stamp (clock st2) (heap st2 merged)))) /\
   (offline st2 = false ->
    forall error,
    putOutcome (fst (putData merged amended st2)) = inr error ->
    String.eqb error "CONFLICT" = false ->
    exists st', outer = Some (Queued (Some error), st') /\
      syncQueue st' = syncQueue st ++ [mkOp "update" merged amended (clock st2 + 1)] /\
      tracker_data (storage st') = Some (Doc (stamp (clock st2) (heap st2 merged)))) /\
   (offline st2 = false ->
    conflicted (fst (putData merged amended st2)) = true ->
    outer = handleConflict (commitData fuel) merged amended
              (snd (putData merged amended st2)))).
Proof.
  intros Hoff Hc st1 st2 amended outer. split.
  { intros error Hm. subst outer. now erewrite commitData_conflict_foreign by eassumption. }
  intros merged Hm.
  assert (H1 : outer = commitData (S fuel) merged amended st2)
    by (subst outer; now erewrite commitData_conflict_merged by eassumption).
  destruct (fetchAndMerge_frame data st1) as (_ & Hq & _ & Hfm).
  fold st2 in Hq. rewrite Hm in Hfm. destruct Hfm as (Hnew & _ & _).
  assert (Hq1 : syncQueue st1 = syncQueue st) by (subst st1; now rewrite putData_eq).
  assert (Hn1 : next st1 = next st) by (subst st1; now rewrite putData_eq).
  assert (Hh1 : heap st1 data = stamp (clock st) (heap st data))
    by (subst st1; rewrite putData_eq; cbn; now rewrite fn_lookup_alter).
  split; [exact H1|]. split; [congruence|]. split.
  { subst st2. unfold fetchAndMerge in Hm |- *.
    pose proof (fetchData_frame st1) as Hf. cbn in Hf.
    destruct (fetchData st1) as [[error|remote] s]; cbn in Hf, Hm |- *; [discriminate|].
    destruct Hf as (_ & _ & Hh & Hn & _). injection Hm as <-.
    exists remote. split; [reflexivity|]. now rewrite fn_lookup_insert, Hh, Hh1. }
  rewrite H1. split; [|split; [|split]].
  - intros Hoff2. rewrite commitData_offline by assumption.
    eexists. split; [reflexivity|]. cbn. rewrite Hq, Hq1. split; reflexivity.
  - intros Hoff2 sha commit Hput. erewrite commitData_success by eassumption.
    eexists. split; [reflexivity|]. cbn. rewrite putData_eq. cbn.
    rewrite Hq, Hq1, fn_lookup_alter. split; reflexivity.
  - intros Hoff2 error Hput Herr. erewrite commitData_failure by eassumption.
    eexists. split; [reflexivity|].
    pose proof (handleError_frame error (snd (putData merged amended st2))) as Hf.
    cbn in Hf. destruct Hf as (_ & Hq3 & _ & _ & Hh3 & _ & Hk3 & _).
    cbn. rewrite Hq3, Hh3, Hk3, putData_eq. cbn.
    rewrite Hq, Hq1, fn_lookup_alter. split; reflexivity.
  - intros Hoff2 Hc2. now rewrite commitData_conflict.
Qed.

Lemma conflict_retries_with_merged_witness :
  commitData 2 0%nat "Edit task"
    (Samples.connected [Samples.refused 409 "Conflict" "sha mismatch";
                        Samples.file "sha9" Samples.remoteDoc;
                        Samples.refused 500 "Internal Server Error" "boom"])
  = commitData 1 4%nat "Edit task (merged)"
      (snd (fetchAndMerge 0%nat
              (snd (putData 0%nat "Edit task"
                      (Samples.connected
                         [Samples.refused 409 "Conflict" "sha mismatch";
                          Samples.file "sha9" Samples.remoteDoc;
                          Samples.refused 500 "Internal Server Error" "boom"]))))).
Proof.
  destruct (conflict_retries_with_merged 0
              (Samples.connected [Samples.refused 409 "Conflict" "sha mismatch";
                                  Samples.file "sha9" Samples.remoteDoc;
                                  Samples.refused 500 "Internal Server Error" "boom"])
              0%nat "Edit task" eq_refl eq_refl) as [_ H].
  destruct (H 4%nat eq_refl) as [H1 _]. exact H1.
Defined.

(** C2 as stated fails on two counts. A retry that conflicts is
    followed by a second merge and a third write; and a retry that
    fails puts the merged document on the queue, under the amended
    message, not the document the caller gave. *)
Lemma conflict_retry_repeats_and_queues_merged :
  (exists result st',
     commitData 4 0%nat "Edit task"
       (Samples.connected [Samples.refused 409 "Conflict" "sha mismatch";
                           Samples.file "sha9" Samples.remoteDoc;
                           Samples.refused 409 "Conflict" "sha mismatch";
                           Samples.file "sha11" Samples.remoteDoc;
                           Samples.committed "sha12"])
     = Some (result, st') /\
     success result = true /\
     map method (sent st') = ["PUT"; "GET"; "PUT"; "GET"; "PUT"]) /\
  (exists error st',
     commitData 4 0%nat "Edit task"
       (Samples.connected [Samples.refused 409 "Conflict" "sha mismatch";
                           Samples.file "sha9" Samples.remoteDoc;
                           Samples.refused 500 "Internal Server Error" "boom"])
     = Some (Queued error, st') /\
     map (fun o => (op_data o, op_message o)) (syncQueue st')
     = [(4%nat, "Edit task (merged)")] /\
     map task_id (tasks (heap st' 4%nat)) = ["t1"; "t2"] /\
     map task_id (tasks (heap st' 0%nat)) = ["t1"]).
Proof.
  split.
  - eexists _, _. split; [vm_compute; reflexivity|]. split; reflexivity.
  - eexists _, _. split; [vm_compute; reflexivity|]. repeat split.
Qed.

(** When the data file does not hold a document, a save that conflicts
    returns the conflict tag: the remote data is what the local store
    holds, and the caller's document is neither kept there nor queued. *)
Example conflict_with_foreign_remote :
  exists error st',
    commitData 4 0%nat "Edit task"
      (Samples.connected [Samples.refused 409 "Conflict" "sha mismatch";
                          Samples.emptyObject "sha9"])
    = Some (Conflict error, st') /\
    tracker_data (storage st') = Some (Foreign error) /\
    syncQueue st' = [].
Proof. eexists _, _. split; [vm_compute; reflexivity|]. split; reflexivity. Qed.

(** Whenever the save of the head of the queue fails without a
    conflict, the flush stops, and the queue it leaves is the old queue
    with the head once more at its end. *)
Lemma flush_failure_requeues_head fuel st item rest error :
  syncQueue st = item :: rest ->
  offline st = false ->
  putOutcome (fst (putData (op_data item) (op_message item) st)) = inr error ->
  String.eqb error "CONFLICT" = false ->
  exists st',
    processSyncQueue (S fuel) st
    = Some (mkFlush 0 1 (Some (length (syncQueue st'))), st') /\
    syncQueue st'
    = item :: rest ++ [mkOp "update" (op_data item) (op_message item) (clock st + 1)].
Proof.
  intros Hq Hoff Hput Herr. unfold processSyncQueue. rewrite Hq.
  cbn [flushLoop]. rewrite Hq.
  erewrite commitData_failure by eassumption. cbn [success].
  pose proof (handleError_frame error
                (snd (putData (op_data item) (op_message item) st))) as Hf.
  cbn in Hf. destruct Hf as (_ & Hq3 & _ & _ & _ & _ & Hk3 & _).
  assert (Hq1 : syncQueue (snd (putData (op_data item) (op_message item) st)) = item :: rest)
    by (rewrite putData_eq; cbn; exact Hq).
  assert (Hk1 : clock (snd (putData (op_data item) (op_message item) st)) = clock st + 1)
    by (now rewrite putData_eq).
  eexists. split; [reflexivity|].
  cbn. now rewrite Hq3, Hk3, Hq1, Hk1.
Qed.

End EngineFacts.

(** * Further properties *)

(** ** The merge, further *)

Module MergeMore.
Import Merge MergeFacts.
Local Open Scope list_scope.

Section ArraysById.
Context {Id A : Type} `{EqDecision Id}.
Variable idField : A -> Id.

Lemma filter_fresh_more (k : Id) (keys ids : list Id) :
  k ∉ ids ->
  filter (fun i => i ∉ keys ++ [k]) ids = filter (fun i => i ∉ keys) ids.
Proof.
  intros Hk. induction ids as [|i ids IH]; [reflexivity|].
  apply not_elem_of_cons in Hk. destruct Hk as [Hne Hk].
  rewrite !filter_cons, IH by assumption.
  destruct (decide (i ∉ keys ++ [k])) as [H1|H1]; destruct (decide (i ∉ keys)) as [H2|H2];
    try reflexivity; exfalso.
  - apply H2. intros Hin. apply H1. apply elem_of_app. now left.
  - apply H1. intros Hin. apply elem_of_app in Hin. destruct Hin as [Hin|Hin]; [contradiction|].
    apply list_elem_of_singleton in Hin. congruence.
Qed.

Lemma filter_none_known (ids : list Id) :
  filter (fun i => i ∉ @nil Id) ids = ids.
Proof.
  induction ids as [|i l IH]; [reflexivity|].
  rewrite filter_cons, decide_True by apply not_elem_of_nil. now rewrite IH.
Qed.

Lemma forEach_set_keys items (m : list (Id * A)) :
  NoDup (map idField items) ->
  map fst (forEach_set idField items m)
  = map fst m ++ filter (fun i => i ∉ map fst m) (map idField items).
Proof.
  revert m. induction items as [|x items IH]; intros m Hn; cbn [forEach_set fold_left map].
  - now rewrite filter_nil, app_nil_r.
  - apply NoDup_cons in Hn. destruct Hn as [Hx Hn].
    change (fold_left _ items ?m0) with (forEach_set idField items m0).
    rewrite IH by assumption. rewrite map_set_keys, filter_cons.
    destruct (decide (idField x ∈ map fst m)) as [Hin|Hout].
    + rewrite decide_False by (intros Hc; contradiction). reflexivity.
    + rewrite decide_True by assumption.
      rewrite filter_fresh_more by assumption. now rewrite <- app_assoc.
Qed.

(** The ids of the merged array, in order. *)
Lemma mergeArrays_ids (remote local : list A) :
  NoDup (map idField remote) -> NoDup (map idField local) ->
  map idField (mergeArrays idField remote local)
  = map idField remote
    ++ filter (fun i => i ∉ map idField remote) (map idField local).
Proof.
  intros Hr Hl. unfold mergeArrays.
  destruct (forEach_set_fresh idField remote) as [Hk1 Hn1].
  destruct (forEach_set_invariant idField local _ Hk1 Hn1) as [Hk2 Hn2].
  rewrite keyed_values_ids by assumption.
  rewrite forEach_set_keys by assumption.
  rewrite (forEach_set_keys remote []) by assumption. cbn [map app].
  now rewrite filter_none_known.
Qed.

(** Two arrays with the same ids in the same order, each id once, and
    the same element under every id, are the same array. *)
Lemma same_ids_same_items (l1 l2 : list A) :
  NoDup (map idField l1) ->
  map idField l1 = map idField l2 ->
  (forall k, find_by_id idField k l1 = find_by_id idField k l2) ->
  l1 = l2.
Proof.
  revert l2. induction l1 as [|x l1 IH]; intros [|y l2] Hn Hids Hfind; try discriminate;
    [reflexivity|].
  cbn [map] in Hids, Hn. injection Hids as Hxy Hids.
  apply NoDup_cons in Hn. destruct Hn as [Hx Hn].
  pose proof (Hfind (idField x)) as Hhead. cbn [find_by_id] in Hhead.
  rewrite decide_True in Hhead by reflexivity.
  rewrite decide_True in Hhead by congruence. injection Hhead as <-.
  f_equal. apply IH; [assumption..|].
  intros k. specialize (Hfind k). cbn [find_by_id] in Hfind.
  destruct (decide (idField x = k)) as [<-|Hne]; [|exact Hfind].
  rewrite !find_by_id_None; [reflexivity|congruence|assumption].
Qed.

Lemma filter_all_known (ids : list Id) :
  filter (fun i => i ∉ ids) ids = [].
Proof.
  assert (H : forall l, (forall i, i ∈ l -> i ∈ ids) -> filter (fun i => i ∉ ids) l = []).
  { induction l as [|i l IH]; intros Hl; [reflexivity|].
    rewrite filter_cons, decide_False, IH; [reflexivity| |].
    - intros j Hj. apply Hl, elem_of_cons. now right.
    - intros Hc. apply Hc, Hl, elem_of_cons. now left. }
  now apply H.
Qed.

Lemma mergeArrays_same (items : list A) :
  NoDup (map idField items) -> mergeArrays idField items items = items.
Proof.
  intros Hn. apply same_ids_same_items.
  - apply mergeArrays_NoDup.
  - rewrite mergeArrays_ids, filter_all_known by assumption. apply app_nil_r.
  - intros k. rewrite mergeArrays_find by assumption.
    now destruct (find_by_id idField k items).
Qed.
End ArraysById.


Section Sort.
Context {A : Type}.
Variable comparefn : A -> A -> Z.
Variable same : A -> Prop.
Context `{forall x, Decision (same x)}.

(** An element is inserted behind elements only that compare strictly
    before it, so the elements of one rank keep their order. *)
Lemma sort_insert_stable x (l : list A) :
  (forall y, same x -> same y -> comparefn x y = 0) ->
  filter same (sort_insert comparefn x l) = filter same (x :: l).
Proof.
  intros Hsame. induction l as [|y l IH]; [reflexivity|].
  cbn [sort_insert]. destruct (Z.leb_spec (comparefn x y) 0) as [Hle|Hgt]; [reflexivity|].
  rewrite filter_cons, IH, !filter_cons.
  destruct (decide (same y)) as [Hy|Hy]; [|reflexivity].
  destruct (decide (same x)) as [Hx|Hx]; [|reflexivity].
  specialize (Hsame y Hx Hy). lia.
Qed.

Lemma sort_stable (l : list A) :
  (forall x y, same x -> same y -> comparefn x y = 0) ->
  filter same (sort comparefn l) = filter same l.
Proof.
  intros Hsame. induction l as [|x l IH]; [reflexivity|].
  cbn [sort fold_right]. change (fold_right _ [] l) with (sort comparefn l).
  rewrite sort_insert_stable by (intros; now apply Hsame).
  now rewrite !filter_cons, IH.
Qed.
End Sort.

(** X1. The merged history holds the entries of both histories, each as
    often as the two sides hold it together, ordered newest first;
    entries of one timestamp stay in the order remote before local, and
    within a side in the order they had. *)
Theorem merged_history_is_sorted_concatenation now remote local :
  history (mergeData now remote local) ≡ₚ history remote ++ history local /\
  StronglySorted newerFirst (history (mergeData now remote local)) /\
  forall t,
    filter (fun e => timestamp e = t) (history (mergeData now remote local))
    = filter (fun e => timestamp e = t) (history remote ++ history local).
Proof.
  split; [apply mergeData_history_perm|]. split; [apply mergeData_history_sorted|].
  intros t. cbn [mergeData history]. apply sort_stable.
  intros x y Hx Hy. unfold byTimestampDesc. lia.
Qed.

(** X2. With ids unique on each side, the merged tasks, and likewise
    the merged requests, stand in the order of the remote side,
    followed by the elements only the local side has, in local order. *)
Theorem merged_order_is_remote_then_new now remote local :
  NoDup (map task_id (tasks remote)) -> NoDup (map task_id (tasks local)) ->
  NoDup (map request_id (requests remote)) -> NoDup (map request_id (requests local)) ->
  map task_id (tasks (mergeData now remote local))
  = map task_id (tasks remote)
    ++ filter (fun i => i ∉ map task_id (tasks remote)) (map task_id (tasks local)) /\
  map request_id (requests (mergeData now remote local))
  = map request_id (requests remote)
    ++ filter (fun i => i ∉ map request_id (requests remote))
         (map request_id (requests local)).
Proof.
  intros Htr Htl Hrr Hrl. cbn [mergeData tasks requests].
  split; now apply mergeArrays_ids.
Qed.

Lemma merged_order_is_remote_then_new_witness :
  map task_id (tasks (mergeData 7 Samples.localDoc Samples.remoteDoc)) = ["t1"; "t2"].
Proof.
  assert (Htr : NoDup (map task_id (tasks Samples.localDoc)))
    by (apply (bool_decide_unpack _); vm_compute; exact I).
  assert (Htl : NoDup (map task_id (tasks Samples.remoteDoc)))
    by (apply (bool_decide_unpack _); vm_compute; exact I).
  assert (Hrr : NoDup (map request_id (requests Samples.localDoc)))
    by (apply (bool_decide_unpack _); vm_compute; exact I).
  assert (Hrl : NoDup (map request_id (requests Samples.remoteDoc)))
    by (apply (bool_decide_unpack _); vm_compute; exact I).
  destruct (merged_order_is_remote_then_new 7 Samples.localDoc Samples.remoteDoc
              Htr Htl Hrr Hrl) as [Ht _].
  rewrite Ht. reflexivity.
Defined.

(** X3. Merging a document with an equal copy leaves its tasks, its
    requests, its users and its version as they are, when the ids are
    unique; the history comes out with every entry twice. *)
Theorem merge_with_equal_copy now doc :
  NoDup (map task_id (tasks doc)) -> NoDup (map request_id (requests doc)) ->
  let merged := mergeData now doc doc in
  tasks merged = tasks doc /\ requests merged = requests doc /\
  users merged = users doc /\ version merged = version doc /\
  history merged ≡ₚ history doc ++ history doc.
Proof.
  intros Ht Hr. cbn zeta. cbn [mergeData tasks requests users version].
  split; [now apply mergeArrays_same|]. split; [now apply mergeArrays_same|].
  split; [reflexivity|]. split; [reflexivity|]. apply mergeData_history_perm.
Qed.

Lemma merge_with_equal_copy_witness :
  tasks (mergeData 7 Samples.remoteDoc Samples.remoteDoc) = tasks Samples.remoteDoc
  /\ length (history (mergeData 7 Samples.remoteDoc Samples.remoteDoc)) = 2%nat.
Proof.
  assert (Ht : NoDup (map task_id (tasks Samples.remoteDoc)))
    by (apply (bool_decide_unpack _); vm_compute; exact I).
  assert (Hr : NoDup (map request_id (requests Samples.remoteDoc)))
    by (apply (bool_decide_unpack _); vm_compute; exact I).
  destruct (merge_with_equal_copy 7 Samples.remoteDoc Ht Hr) as (H1 & _).
  split; [exact H1|reflexivity].
Defined.

End MergeMore.

(** ** The envelope, further *)

Module CodecMore.
Import Codec Notions Terms CodecFacts.
Local Open Scope list_scope.


Lemma filter_twice (l : jsstring) :
  List.filter (fun c => negb (isAsciiWhitespace c))
    (List.filter (fun c => negb (isAsciiWhitespace c)) l)
  = List.filter (fun c => negb (isAsciiWhitespace c)) l.
Proof.
  induction l as [|c l IH]; [reflexivity|]. cbn [List.filter].
  destruct (negb (isAsciiWhitespace c)) eqn:E; [|exact IH].
  cbn [List.filter]. now rewrite E, IH.
Qed.

Lemma atob_filter data :
  atob data = atob (List.filter (fun c => negb (isAsciiWhitespace c)) data).
Proof. unfold atob. now rewrite filter_twice. Qed.

Lemma toCodePoints_scalar s :
  Forall (fun c => 0 <= c <= 65535) s -> Forall isScalar (toCodePoints s).
Proof.
  remember (length s) as n eqn:Hn. revert s Hn.
  induction n as [n IH] using lt_wf_ind. intros s Hn Hs.
  destruct s as [|c s']; [constructor|].
  inversion Hs as [|? ? Hc Hs']; subst. cbn [toCodePoints].
  assert (Hrep : isScalar 65533) by (unfold isScalar; lia).
  assert (Htail : Forall isScalar (toCodePoints s'))
    by (apply (IH (length s')); [simpl; lia|reflexivity|assumption]).
  destruct (isLead c) eqn:Hl.
  - destruct s' as [|d s'']; [now repeat constructor|].
    inversion Hs' as [|? ? Hd Hs'']; subst.
    destruct (isTrail d) eqn:Ht; [|now constructor].
    constructor; [unfold isScalar, isLead, isTrail in *; lia|].
    apply (IH (length s'')); [simpl; lia|reflexivity|assumption].
  - destruct (isTrail c) eqn:Ht; [now constructor|].
    constructor; [unfold isScalar, isLead, isTrail in *; lia|assumption].
Qed.

Lemma encode_isByte s :
  Forall (fun c => 0 <= c <= 65535) s -> Forall isByte (TextEncoder_encode s).
Proof.
  intros Hs. pose proof (toCodePoints_scalar s Hs) as H.
  unfold TextEncoder_encode. induction H as [|cp cps Hcp _ IH]; simpl; [constructor|].
  apply Forall_app. split; [now apply utf8_bytes_isByte|assumption].
Qed.

Lemma decode_encode s :
  Forall (fun c => 0 <= c <= 65535) s ->
  TextDecoder_decode (TextEncoder_encode s) = dropMark (toWellFormed s).
Proof.
  intros Hs. pose proof (toCodePoints_scalar s Hs) as H.
  unfold TextDecoder_decode, TextEncoder_encode, toWellFormed.
  rewrite utf8_decode_encode by assumption.
  destruct (toCodePoints s) as [|cp cps]; [reflexivity|].
  rewrite fromCodePoints_cons. inversion H as [|? ? [Hr Hn] _]; subst.
  unfold fromCodePoint. destruct (Z.eqb_spec cp 65279) as [->|Hne].
  - reflexivity.
  - destruct (Z.ltb_spec cp 65536).
    + cbn [app dropMark]. now replace (cp =? 65279) with false by lia.
    + cbn [app dropMark].
      replace (55296 + (cp - 65536) / 1024 =? 65279) with false; [reflexivity|].
      symmetry. apply Z.eqb_neq. euclid.
Qed.

(** X4. [utf8ToBase64] never throws and never needs its fallback: for
    every string it returns the base64 of the UTF-8 bytes, and
    [base64ToUtf8] of that is the string with every lone surrogate
    replaced by U+FFFD and without a byte order mark at its start. *)
Theorem envelope_of_any_string (s : jsstring) :
  Forall (fun c => 0 <= c <= 65535) s ->
  utf8ToBase64 s = Some (encodeGroups (TextEncoder_encode s)) /\
  base64ToUtf8 (encodeGroups (TextEncoder_encode s)) = Some (dropMark (toWellFormed s)).
Proof.
  intros Hs. pose proof (encode_isByte s Hs) as Hb. split.
  - unfold utf8ToBase64. rewrite map_mod_bytes by (assumption || lia).
    now rewrite btoa_bytes.
  - unfold base64ToUtf8. rewrite atob_encodeGroups by assumption.
    rewrite map_mod_bytes by (assumption || lia).
    now rewrite decode_encode.
Qed.

Lemma envelope_of_any_string_witness :
  base64ToUtf8 (encodeGroups (TextEncoder_encode [65279; 97; 55357; 98]))
  = Some [97; 65533; 98].
Proof.
  assert (H : Forall (fun c => 0 <= c <= 65535) [65279; 97; 55357; 98])
    by (repeat constructor; lia).
  destruct (envelope_of_any_string [65279; 97; 55357; 98] H) as [_ H2].
  rewrite H2. reflexivity.
Defined.

(** X5. Decoding does not mind how the base64 text is broken into
    lines: with ASCII whitespace put anywhere into the encoding of a
    document's text, [base64ToUtf8] still returns that text. *)
Theorem decoding_ignores_line_breaks (s base64 wrapped : jsstring) :
  isWellFormed s = true -> head s <> Some 65279 ->
  utf8ToBase64 s = Some base64 ->
  List.filter (fun c => negb (isAsciiWhitespace c)) wrapped = base64 ->
  base64ToUtf8 wrapped = Some s.
Proof.
  intros Hwf Hbom Henc Hwrap.
  pose proof (TextEncoder_encode_isByte s Hwf) as Hb.
  unfold utf8ToBase64 in Henc. rewrite map_mod_bytes in Henc by (assumption || lia).
  rewrite btoa_bytes in Henc by assumption. injection Henc as <-.
  unfold base64ToUtf8. rewrite atob_filter, Hwrap, atob_encodeGroups by assumption.
  rewrite map_mod_bytes by (assumption || lia).
  now rewrite TextDecoder_decode_encode.
Qed.

Lemma decoding_ignores_line_breaks_witness :
  base64ToUtf8 (lit "VHLD" ++ [10] ++ lit "om4=" ++ [10]) = Some [84; 114; 226; 110].
Proof.
  apply (decoding_ignores_line_breaks [84; 114; 226; 110] (lit "VHLDom4=")).
  - reflexivity.
  - simpl. intros [= H].
  - reflexivity.
  - reflexivity.
Defined.

Lemma stripPadding_keeps c (l : jsstring) :
  In c l -> c <> 61 -> In c (stripPadding l).
Proof.
  intros Hin Hc. unfold stripPadding.
  destruct (Z.of_nat (length l) mod 4 =? 0); [|assumption].
  assert (Hrev : In c (rev l)) by now apply in_rev in Hin.
  destruct (rev l) as [|c1 r1] eqn:E; [assumption|].
  destruct (Z.eqb_spec c1 61) as [->|H1]; [|assumption].
  destruct Hrev as [Heq|Hrev]; [congruence|].
  destruct r1 as [|c2 r2]; [destruct Hrev|].
  destruct (Z.eqb_spec c2 61) as [->|H2].
  - destruct Hrev as [Heq|Hrev]; [congruence|]. now apply in_rev in Hrev.
  - now apply -> in_rev.
Qed.

Lemma sextets_foreign c (l : jsstring) :
  In c l -> b64value c = None -> sextets l = None.
Proof.
  induction l as [|d l IH]; intros Hin Hc; [destruct Hin|]. cbn [sextets].
  destruct Hin as [->|Hin]; [now rewrite Hc|].
  rewrite (IH Hin Hc). now destruct (b64value d).
Qed.

(** [atob] throws on text with a character that base64 cannot hold. *)
Lemma atob_foreign c (data : jsstring) :
  In c data -> foreignChar c = true -> atob data = None.
Proof.
  unfold foreignChar. intros Hin Hc.
  apply andb_true_iff in Hc. destruct Hc as [Hc Hv].
  apply andb_true_iff in Hc. destruct Hc as [Hw Hp].
  assert (Hval : b64value c = None) by (destruct (b64value c); [discriminate|reflexivity]).
  unfold atob.
  assert (H : In c (stripPadding (List.filter (fun c => negb (isAsciiWhitespace c)) data))).
  { apply stripPadding_keeps; [|lia]. apply filter_In. now split. }
  rewrite (sextets_foreign c _ H Hval). now destruct (_ =? 1).
Qed.

End CodecMore.

(** ** The client, further *)

Module EngineMore.
Import Merge Codec Engine Handlers Notions Terms CodecFacts CodecMore EngineFacts.
Local Open Scope list_scope.

#[local] Arguments putOutcome : simpl never.
#[local] Arguments handleError : simpl never.
#[local] Arguments getToken : simpl never.
#[local] Arguments putData : simpl never.
#[local] Arguments fetchAndMerge : simpl never.
#[local] Arguments fetchData : simpl never.

Lemma offline_same (a b : State) :
  config a = config b -> isConnected a = isConnected b -> offline a = offline b.
Proof. unfold offline, getToken. now intros -> ->. Qed.

Lemma stamp_own (d : Document) : stamp (lastUpdated d) d = d.
Proof. now destruct d. Qed.

Lemma handleError_effect error st :
  isConnected (handleError error st)
  = isConnected st && negb (includes (errorText error) "401") /\
  exists message, toasts (handleError error st) = toasts st ++ [message].
Proof.
  unfold handleError, errorText.
  destruct (includes _ "401"); [cbn; rewrite andb_false_r; eauto|].
  rewrite andb_true_r.
  repeat match goal with |- context [if ?b then _ else _] => destruct b end;
    cbn; eauto.
Qed.

(** All that a write answered with a 2xx status does. *)
Lemma commitData_success_full fuel st data commitMessage status statusText body rest :
  offline st = false ->
  net st = Http status statusText body :: rest ->
  ok status = true ->
  exists st',
    commitData (S fuel) data commitMessage st = Some (Committed (body_commit body), st') /\
    sent st' = sent st ++ [PUT (stamp (clock st) (heap st data)) commitMessage
                               (shaField (currentSHA st))] /\
    net st' = rest /\
    currentSHA st' = Some (body_sha body) /\
    heap st' = alter (stamp (clock st)) data (heap st) /\
    tracker_data (storage st') = Some (Doc (heap st' data)) /\
    syncQueue st' = syncQueue st /\
    config st' = config st /\ isConnected st' = isConnected st /\
    toasts st' = toasts st /\ indicator st' = indicator st /\
    next st' = next st /\ clock st' = clock st + 1.
Proof.
  intros Hoff Hnet Hok.
  assert (Hput : putOutcome (fst (putData data commitMessage st))
                 = inl (body_sha body, body_commit body)).
  { rewrite putData_eq, Hnet. cbn. unfold putOutcome. now rewrite Hok. }
  erewrite commitData_success by eassumption.
  eexists. split; [reflexivity|]. cbn. rewrite putData_eq. cbn. rewrite Hnet.
  repeat split; reflexivity.
Qed.

(** X6. A write that the remote accepts: one request goes out, with the
    document stamped with the time of the write, the commit message and
    the sha the client knew; the client takes the new sha, keeps the
    stamped document locally, and queues nothing. *)
Theorem accepted_save fuel st data commitMessage status statusText body rest :
  offline st = false ->
  net st = Http status statusText body :: rest ->
  ok status = true ->
  exists st',
    commitData (S fuel) data commitMessage st = Some (Committed (body_commit body), st') /\
    sent st' = sent st ++ [PUT (stamp (clock st) (heap st data)) commitMessage
                               (shaField (currentSHA st))] /\
    currentSHA st' = Some (body_sha body) /\
    heap st' data = stamp (clock st) (heap st data) /\
    tracker_data (storage st') = Some (Doc (heap st' data)) /\
    syncQueue st' = syncQueue st /\
    toasts st' = toasts st /\ indicator st' = indicator st.
Proof.
  intros Hoff Hnet Hok.
  destruct (commitData_success_full fuel st data commitMessage _ _ _ _ Hoff Hnet Hok)
    as (st' & Hrun & Hsent & _ & Hsha & Hheap & Hloc & Hq & _ & _ & Ht & Hi & _).
  exists st'. repeat split; try assumption.
  rewrite Hheap. apply fn_lookup_alter.
Qed.

Lemma accepted_save_witness :
  exists st',
    commitData 1 0%nat "Edit task" (Samples.connected [Samples.committed "sha1"])
    = Some (Committed "commit of sha1", st') /\
    sent st' = [PUT (stamp 1000 Samples.localDoc) "Edit task" (Some "sha0")] /\
    currentSHA st' = Some "sha1" /\
    heap st' 0%nat = stamp 1000 Samples.localDoc /\
    tracker_data (storage st') = Some (Doc (heap st' 0%nat)) /\
    syncQueue st' = [] /\
    toasts st' = [] /\ indicator st' = Connected.
Proof.
  apply (accepted_save 0 (Samples.connected [Samples.committed "sha1"]) 0%nat "Edit task"
           200 "OK" (mkBody "" "sha1" (Garbled "") "commit of sha1" Samples.noOwner) []);
    reflexivity.
Defined.

(** X7. The sha that one accepted write returns is the sha the next
    write carries. *)
Theorem next_save_carries_new_sha st d1 m1 d2 m2 s1 t1 b1 s2 t2 b2 rest :
  offline st = false ->
  net st = Http s1 t1 b1 :: Http s2 t2 b2 :: rest ->
  ok s1 = true -> ok s2 = true ->
  exists r1 st1 r2 st2,
    commitData 1 d1 m1 st = Some (r1, st1) /\
    commitData 1 d2 m2 st1 = Some (r2, st2) /\
    success r1 = true /\ success r2 = true /\
    map requestSha (sent st2)
    = map requestSha (sent st)
      ++ [shaField (currentSHA st); shaField (Some (body_sha b1))] /\
    map requestMessage (sent st2)
    = map requestMessage (sent st) ++ [Some m1; Some m2] /\
    currentSHA st2 = Some (body_sha b2).
Proof.
  intros Hoff Hnet Hok1 Hok2.
  destruct (commitData_success_full 0 st d1 m1 _ _ _ _ Hoff Hnet Hok1)
    as (st1 & Hrun1 & Hsent1 & Hnet1 & Hsha1 & _ & _ & _ & Hc1 & Hi1 & _).
  assert (Hoff1 : offline st1 = false) by (rewrite (offline_same st1 st); assumption).
  destruct (commitData_success_full 0 st1 d2 m2 _ _ _ _ Hoff1 Hnet1 Hok2)
    as (st2 & Hrun2 & Hsent2 & _ & Hsha2 & _).
  exists (Committed (body_commit b1)), st1, (Committed (body_commit b2)), st2.
  repeat split; try eassumption; try reflexivity.
  - rewrite Hsent2, Hsent1, Hsha1, !map_app, <- app_assoc. reflexivity.
  - rewrite Hsent2, Hsent1, !map_app, <- app_assoc. reflexivity.
Qed.

Lemma next_save_carries_new_sha_witness :
  exists r1 st1 r2 st2,
    commitData 1 0%nat "First" (Samples.connected [Samples.committed "sha1";
                                                   Samples.committed "sha2"])
    = Some (r1, st1) /\
    commitData 1 0%nat "Second" st1 = Some (r2, st2) /\
    success r1 = true /\ success r2 = true /\
    map requestSha (sent st2) = [Some "sha0"; Some "sha1"] /\
    map requestMessage (sent st2) = [Some "First"; Some "Second"] /\
    currentSHA st2 = Some "sha2".
Proof.
  apply (next_save_carries_new_sha
           (Samples.connected [Samples.committed "sha1"; Samples.committed "sha2"])
           0%nat "First" 0%nat "Second"
           200 "OK" (mkBody "" "sha1" (Garbled "") "commit of sha1" Samples.noOwner)
           200 "OK" (mkBody "" "sha2" (Garbled "") "commit of sha2" Samples.noOwner) []);
    reflexivity.
Defined.

(** X8. Saving without a connection: nothing is sent, the operation
    goes to the end of the queue, which is written to the store, and the
    document is kept locally, so that the next load returns it. *)
Theorem offline_save_then_load fuel st data commitMessage :
  offline st = true ->
  exists st',
    commitData (S fuel) data commitMessage st = Some (Queued None, st') /\
    sent st' = sent st /\
    syncQueue st' = syncQueue st ++ [mkOp "update" data commitMessage (clock st)] /\
    sync_queue (storage st') = Some (queueText st') /\
    heap st' = heap st /\
    fetchData st' = (Doc (heap st data), st').
Proof.
  intros Hoff. rewrite commitData_offline by assumption.
  eexists. split; [reflexivity|]. cbn. repeat split.
  unfold fetchData.
  match goal with |- context [noToken (getToken ?s) || negb (isConnected ?s)] =>
    change (noToken (getToken s) || negb (isConnected s)) with (offline s);
    rewrite (offline_same s st) by reflexivity end.
  rewrite Hoff. reflexivity.
Qed.

Lemma offline_save_then_load_witness :
  exists st',
    commitData 1 0%nat "Edit task" Samples.freshPage = Some (Queued None, st') /\
    sent st' = [] /\
    syncQueue st' = [mkOp "update" 0%nat "Edit task" 1000] /\
    sync_queue (storage st') = Some (queueText st') /\
    heap st' = heap Samples.freshPage /\
    fetchData st' = (Doc Samples.localDoc, st').
Proof.
  apply (offline_save_then_load 0 Samples.freshPage 0%nat "Edit task"). reflexivity.
Defined.


(** All that a write failing without a conflict does. *)
Lemma commitData_failure_full fuel st data commitMessage error :
  offline st = false ->
  putOutcome (hd (Rejected "Failed to fetch") (net st)) = inr error ->
  String.eqb error "CONFLICT" = false ->
  exists st',
    commitData (S fuel) data commitMessage st = Some (Queued (Some error), st') /\
    syncQueue st' = syncQueue st ++ [mkOp "update" data commitMessage (clock st + 1)] /\
    sync_queue (storage st') = Some (queueText st') /\
    heap st' data = stamp (clock st) (heap st data) /\
    tracker_data (storage st') = Some (Doc (heap st' data)) /\
    indicator st' = ErrorMode /\
    isConnected st' = negb (includes (errorText error) "401") /\
    (exists message, toasts st' = toasts st ++ [message]) /\
    net st' = tl (net st).
Proof.
  intros Hoff Hput Herr.
  assert (Hput' : putOutcome (fst (putData data commitMessage st)) = inr error)
    by (now rewrite putData_eq).
  assert (Hconn : isConnected st = true).
  { unfold offline in Hoff. apply orb_false_iff in Hoff. destruct Hoff as [_ H].
    now destruct (isConnected st). }
  erewrite commitData_failure by eassumption.
  set (st1 := snd (putData data commitMessage st)).
  assert (H1 : syncQueue st1 = syncQueue st /\ heap st1 data = stamp (clock st) (heap st data)
               /\ clock st1 = clock st + 1 /\ net st1 = tl (net st)
               /\ isConnected st1 = true /\ toasts st1 = toasts st).
  { subst st1. rewrite putData_eq. cbn. rewrite fn_lookup_alter. auto 10. }
  destruct H1 as (Hq1 & Hh1 & Hk1 & Hn1 & Hc1 & Ht1).
  pose proof (handleError_frame error st1) as Hf.
  cbn in Hf. destruct Hf as (_ & Hq & _ & _ & Hh & _ & Hk & Hn & _ & Hi).
  destruct (handleError_effect error st1) as [Hc [message Ht]].
  eexists. split; [reflexivity|]. cbn.
  rewrite Hq, Hh, Hk, Hi, Hc, Hn, Ht, Hq1, Hh1, Hk1, Hn1, Hc1, Ht1. cbn.
  repeat split; try reflexivity. now exists message.
Qed.

(** X9. A write that fails without a conflict, be it a rejected
    request, a timeout or an error status: the operation goes to the end
    of the queue, the stamped document is kept locally, the indicator
    shows the error and one message is shown; the client stays connected
    unless the error text holds 401. *)
Theorem failed_save_is_queued fuel st data commitMessage error :
  offline st = false ->
  putOutcome (hd (Rejected "Failed to fetch") (net st)) = inr error ->
  String.eqb error "CONFLICT" = false ->
  exists st',
    commitData (S fuel) data commitMessage st = Some (Queued (Some error), st') /\
    syncQueue st' = syncQueue st ++ [mkOp "update" data commitMessage (clock st + 1)] /\
    sync_queue (storage st') = Some (queueText st') /\
    heap st' data = stamp (clock st) (heap st data) /\
    tracker_data (storage st') = Some (Doc (heap st' data)) /\
    indicator st' = ErrorMode /\
    isConnected st' = negb (includes (errorText error) "401") /\
    (exists message, toasts st' = toasts st ++ [message]) /\
    net st' = tl (net st).
Proof. apply commitData_failure_full. Qed.

Lemma failed_save_is_queued_witness :
  exists st',
    commitData 1 0%nat "Edit task" (Samples.connected [Rejected "Failed to fetch"])
    = Some (Queued (Some "Failed to fetch"), st') /\
    syncQueue st' = [mkOp "update" 0%nat "Edit task" 1001] /\
    isConnected st' = true /\ indicator st' = ErrorMode.
Proof.
  destruct (failed_save_is_queued 0 (Samples.connected [Rejected "Failed to fetch"])
              0%nat "Edit task" "Failed to fetch" eq_refl eq_refl eq_refl)
    as (st' & Hrun & Hq & _ & _ & _ & Hi & Hc & _).
  exists st'. repeat split; assumption.
Defined.

(** What every save leaves alone. *)
Lemma commitData_keeps fuel :
  forall st data commitMessage result st',
  (data < next st)%nat ->
  commitData fuel data commitMessage st = Some (result, st') ->
  (exists added, syncQueue st' = syncQueue st ++ added /\ (length added <= 1)%nat) /\
  config st' = config st /\
  (next st <= next st')%nat /\
  (forall l, (l < next st)%nat -> l <> data -> heap st' l = heap st l) /\
  exists t, heap st' data = stamp t (heap st data).
Proof.
  induction fuel as [|fuel IH]; intros st data commitMessage result st' Hd Hrun;
    [discriminate|].
  destruct (offline st) eqn:Hoff.
  { rewrite commitData_offline in Hrun by assumption. injection Hrun as <- <-. cbn.
    split; [eexists; split; [reflexivity|cbn; lia]|]. repeat split; auto.
    exists (lastUpdated (heap st data)). symmetry. apply stamp_own. }
  assert (H1 : let st1 := snd (putData data commitMessage st) in
               syncQueue st1 = syncQueue st /\ config st1 = config st /\
               next st1 = next st /\
               (forall l, l <> data -> heap st1 l = heap st l) /\
               heap st1 data = stamp (clock st) (heap st data)).
  { rewrite putData_eq. cbn. repeat split.
    - intros l Hl. now apply fn_lookup_alter_ne.
    - apply fn_lookup_alter. }
  cbn zeta in H1. destruct H1 as (Hq1 & Hc1 & Hn1 & Hh1 & Hd1).
  destruct (putOutcome (fst (putData data commitMessage st)))
    as [[sha commit]|error] eqn:Hput.
  { erewrite commitData_success in Hrun by eassumption. injection Hrun as <- <-. cbn.
    rewrite Hq1, Hc1, Hn1. split; [exists []; split; [now rewrite app_nil_r|cbn; lia]|].
    repeat split; auto. eauto. }
  destruct (String.eqb error "CONFLICT") eqn:Herr.
  - assert (Hc : conflicted (fst (putData data commitMessage st)) = true)
      by (unfold conflicted; now rewrite Hput).
    set (st1 := snd (putData data commitMessage st)) in *.
    destruct (fetchAndMerge_frame data st1) as (Hc2 & Hq2 & _ & Hm).
    destruct (fst (fetchAndMerge data st1)) as [foreign|merged] eqn:Hfm.
    + erewrite commitData_conflict_foreign in Hrun by eassumption.
      injection Hrun as <- <-. fold st1. destruct Hm as [Hn2 Hh2].
      rewrite Hq2, Hc2, Hn2, Hh2, Hq1, Hc1, Hn1.
      split; [exists []; split; [now rewrite app_nil_r|cbn; lia]|].
      repeat split; auto. eauto.
    + erewrite commitData_conflict_merged in Hrun by eassumption. fold st1 in Hrun.
      destruct Hm as (Hm & Hn2 & Hh2).
      apply IH in Hrun; [|lia].
      destruct Hrun as ((added & Hq & Hlen) & Hc3 & Hn3 & Hh3 & _).
      rewrite Hq2, Hq1 in Hq. rewrite Hc2, Hc1 in Hc3.
      split; [eauto|]. split; [assumption|]. split; [lia|]. split.
      * intros l Hl Hne. rewrite Hh3, Hh2 by lia. now apply Hh1.
      * exists (clock st). rewrite Hh3, Hh2 by lia. assumption.
  - erewrite commitData_failure in Hrun by eassumption. injection Hrun as <- <-.
    pose proof (handleError_frame error (snd (putData data commitMessage st))) as Hf.
    cbn in Hf. destruct Hf as (Hc3 & Hq3 & _ & _ & Hh3 & Hn3 & _).
    cbn. rewrite Hq3, Hc3, Hn3, Hh3, Hq1, Hc1, Hn1.
    split; [eexists; split; [reflexivity|cbn; lia]|]. repeat split; auto. eauto.
Qed.

(** X10. What no save does: it removes no pending operation and moves
    none, adding at most one at the end; it leaves the configuration as
    it is; and of the documents that exist it changes only the one it is
    given, and of that only [lastUpdated]. *)
Theorem save_keeps_queue_and_documents fuel st data commitMessage result st' :
  (data < next st)%nat ->
  commitData fuel data commitMessage st = Some (result, st') ->
  (exists added, syncQueue st' = syncQueue st ++ added /\ (length added <= 1)%nat) /\
  config st' = config st /\
  (forall l, (l < next st)%nat -> l <> data -> heap st' l = heap st l) /\
  exists t, heap st' data = stamp t (heap st data).
Proof.
  intros Hd Hrun.
  destruct (commitData_keeps fuel st data commitMessage result st' Hd Hrun)
    as (Hq & Hc & _ & Hh & Ht).
  auto.
Qed.

Lemma save_keeps_queue_and_documents_witness :
  exists result st',
    commitData 4 1%nat "A"
      (Samples.pending [Samples.refused 409 "Conflict" "sha mismatch";
                        Samples.file "sha9" Samples.remoteDoc;
                        Samples.refused 500 "Internal Server Error" "boom"])
    = Some (result, st') /\
    (exists added,
       syncQueue st'
       = syncQueue (Samples.pending [Samples.refused 409 "Conflict" "sha mismatch";
                                     Samples.file "sha9" Samples.remoteDoc;
                                     Samples.refused 500 "Internal Server Error" "boom"])
         ++ added /\ (length added <= 1)%nat) /\
    heap st' 2%nat = Samples.objects 2%nat.
Proof.
  destruct (commitData 4 1%nat "A"
              (Samples.pending [Samples.refused 409 "Conflict" "sha mismatch";
                                Samples.file "sha9" Samples.remoteDoc;
                                Samples.refused 500 "Internal Server Error" "boom"]))
    as [[result st']|] eqn:Hrun; [|vm_compute in Hrun; discriminate].
  exists result, st'. split; [reflexivity|].
  assert (Hd : (1 < next (Samples.pending
                            [Samples.refused 409 "Conflict" "sha mismatch";
                             Samples.file "sha9" Samples.remoteDoc;
                             Samples.refused 500 "Internal Server Error" "boom"]))%nat)
    by (simpl; lia).
  destruct (save_keeps_queue_and_documents 4 _ 1%nat "A" result st' Hd Hrun)
    as (Hq & _ & Hh & _).
  split; [exact Hq|]. apply (Hh 2%nat); simpl; lia.
Defined.

(** The loop of the flush over a run of accepted writes. *)
Lemma flushLoop_successes fuel later restnet :
  forall done oks st total rounds processed,
  total = (length done + rounds)%nat ->
  syncQueue st = done ++ later ->
  offline st = false ->
  net st = oks ++ restnet ->
  Forall (fun r => okReply r = true) oks ->
  length oks = length done ->
  exists st1 puts,
    flushLoop total (S fuel) processed st
    = flushLoop rounds (S fuel) (processed + length done) st1 /\
    syncQueue st1 = later /\ offline st1 = false /\ net st1 = restnet /\
    sent st1 = sent st ++ puts /\
    map requestMessage puts = map (fun o => Some (op_message o)) done /\
    toasts st1 = toasts st /\ isConnected st1 = isConnected st /\
    config st1 = config st.
Proof.
  induction done as [|item done IH]; intros oks st total rounds processed -> Hq Hoff Hnet Hok Hlen.
  - destruct oks; [|discriminate]. exists st, []. cbn in *.
    rewrite Nat.add_0_r, app_nil_r. repeat split; auto.
  - destruct oks as [|reply oks]; [discriminate|].
    inversion Hok as [|? ? Hreply Hoks]; subst.
    destruct reply as [error|status statusText body]; [discriminate|]. cbn in Hreply.
    cbn in Hlen. injection Hlen as Hlen. cbn [app] in Hnet, Hq.
    destruct (commitData_success_full fuel st (op_data item) (op_message item)
                _ _ _ _ Hoff Hnet Hreply)
      as (stA & Hrun & Hsent & HnetA & _ & _ & _ & HqA & HcA & HiA & HtA & _).
    cbn [length Nat.add flushLoop]. rewrite Hq, Hrun. cbn [success].
    destruct (IH oks (set_syncQueue (tail (syncQueue stA)) stA) (length done + rounds)%nat
                rounds (S processed) eq_refl)
      as (st1 & puts & Hloop & Hq1 & Hoff1 & Hnet1 & Hsent1 & Hmsg & Ht1 & Hi1 & Hc1);
      try assumption.
    + cbn. now rewrite HqA, Hq.
    + rewrite (offline_same _ st); [assumption|cbn; assumption..].
    + exists st1, (PUT (stamp (clock st) (heap st (op_data item))) (op_message item)
                    (shaField (currentSHA st)) :: puts).
      rewrite Hloop. replace (S processed + length done)%nat
        with (processed + S (length done))%nat by lia.
      cbn in Hsent1, Ht1, Hi1, Hc1.
      repeat split; try assumption; try congruence.
      * rewrite Hsent1, Hsent, <- app_assoc. reflexivity.
      * cbn. now rewrite Hmsg.
Qed.




(** X12. A flush stops at the first write that fails without a
    conflict: the operations before it, all accepted, are counted and
    gone from the queue; the failed operation and the later ones stay in
    front, in their order; and the failed save has put the failed
    operation on the queue once more, at the end. *)
Theorem flush_stops_at_first_failure fuel st done item later oks bad rest error :
  syncQueue st = done ++ item :: later ->
  offline st = false ->
  net st = oks ++ bad :: rest ->
  Forall (fun r => okReply r = true) oks ->
  length oks = length done ->
  putOutcome bad = inr error ->
  String.eqb error "CONFLICT" = false ->
  (length done + 1 < fuel)%nat ->
  exists st' time,
    processSyncQueue fuel st
    = Some (mkFlush (length done) 1 (Some (length later + 2)%nat), st') /\
    syncQueue st'
    = item :: later ++ [mkOp "update" (op_data item) (op_message item) time] /\
    net st' = rest.
Proof.
  intros Hq Hoff Hnet Hok Hlen Hbad Herr Hfuel.
  destruct fuel as [|fuel]; [lia|].
  destruct (flushLoop_successes fuel (item :: later) (bad :: rest) done oks st (S fuel)
              (S fuel - length done) 0%nat)
    as (st1 & puts & Hloop & Hq1 & Hoff1 & Hnet1 & _);
    try assumption; [lia|].
  unfold processSyncQueue. rewrite Hq.
  destruct (done ++ item :: later) as [|first q] eqn:Hshape;
    [now destruct done|]. rewrite <- Hshape in *. clear Hshape first q.
  rewrite Hloop.
  destruct (S fuel - length done)%nat as [|rounds] eqn:Hrounds; [lia|].
  cbn [flushLoop]. rewrite Hq1.
  destruct (commitData_failure_full fuel st1 (op_data item) (op_message item) error)
    as (st2 & Hrun & Hq2 & _ & _ & _ & _ & _ & _ & Hnet2);
    [assumption|now rewrite Hnet1|assumption|].
  rewrite Hrun. cbn [success].
  exists (saveSyncQueue st2), (clock st1 + 1). cbn.
  rewrite Hq2, Hq1, Hnet2, Hnet1. cbn. rewrite length_app. cbn.
  replace (length later + 1)%nat with (S (length later)) by lia.
  replace (length later + 2)%nat with (S (S (length later))) by lia.
  repeat split; reflexivity.
Qed.

Lemma flush_stops_at_first_failure_witness :
  exists st' time,
    processSyncQueue 4
      (Samples.pending [Samples.committed "sha1";
                        Samples.refused 500 "Internal Server Error" "boom"])
    = Some (mkFlush 1 1 (Some 3%nat), st') /\
    syncQueue st'
    = mkOp "update" 2%nat "B" 12
      :: [mkOp "update" 3%nat "C" 13] ++ [mkOp "update" 2%nat "B" time] /\
    net st' = [].
Proof.
  apply (flush_stops_at_first_failure 4
           (Samples.pending [Samples.committed "sha1";
                             Samples.refused 500 "Internal Server Error" "boom"])
           [mkOp "update" 1%nat "A" 11] (mkOp "update" 2%nat "B" 12)
           [mkOp "update" 3%nat "C" 13]
           [Samples.committed "sha1"]
           (Samples.refused 500 "Internal Server Error" "boom") []
           "GitHub commit failed: 500 boom").
  - reflexivity.
  - reflexivity.
  - reflexivity.
  - repeat constructor.
  - reflexivity.
  - reflexivity.
  - reflexivity.
  - simpl. lia.
Defined.

(** X13. A flush without a connection sends nothing and reports one
    failure; the save it tries for the first operation puts that
    operation on the queue once more and makes that operation's
    document the local snapshot. *)
Theorem flush_while_offline fuel st item later :
  syncQueue st = item :: later ->
  offline st = true ->
  exists st',
    processSyncQueue (S fuel) st
    = Some (mkFlush 0 1 (Some (length later + 2)%nat), st') /\
    syncQueue st'
    = item :: later ++ [mkOp "update" (op_data item) (op_message item) (clock st)] /\
    sent st' = sent st /\
    tracker_data (storage st') = Some (Doc (heap st (op_data item))).
Proof.
  intros Hq Hoff. unfold processSyncQueue. rewrite Hq. cbn [flushLoop]. rewrite Hq.
  rewrite commitData_offline by assumption. cbn [success].
  eexists. split.
  - cbn. match goal with |- Some (?A, _) = Some (?B, _) =>
      replace A with B; [reflexivity|] end.
    rewrite Hq. cbn. rewrite length_app. cbn. do 3 f_equal. lia.
  - cbn. rewrite Hq. repeat split.
Qed.

Lemma flush_while_offline_witness :
  exists st',
    processSyncQueue 1 (set_isConnected false (Samples.pending []))
    = Some (mkFlush 0 1 (Some 4%nat), st') /\
    syncQueue st'
    = mkOp "update" 1%nat "A" 11
      :: [mkOp "update" 2%nat "B" 12; mkOp "update" 3%nat "C" 13]
         ++ [mkOp "update" 1%nat "A" 1000] /\
    sent st' = [] /\
    tracker_data (storage st') = Some (Doc (Samples.objects 1%nat)).
Proof.
  apply (flush_while_offline 0 (set_isConnected false (Samples.pending []))
           (mkOp "update" 1%nat "A" 11)
           [mkOp "update" 2%nat "B" 12; mkOp "update" 3%nat "C" 13]);
    reflexivity.
Defined.

Lemma parseQueue_spec text :
  forall st,
  let q := fst (parseQueue text st) in
  let st' := snd (parseQueue text st) in
  map (fun o => mkOp (op_action o) (heap st' (op_data o)) (op_message o) (op_timestamp o)) q
  = text /\
  map op_data q = seq (next st) (length text) /\
  next st' = (next st + length text)%nat /\
  (forall l, (l < next st)%nat -> heap st' l = heap st l).
Proof.
  induction text as [|o text IH]; intros st; cbn [parseQueue].
  - cbn. repeat split; auto.
  - specialize (IH (snd (alloc (op_data o) st))). unfold alloc in *. cbn [fst snd] in *.
    destruct (parseQueue text _) as [q st2]. cbn in IH |- *.
    destruct IH as (Htext & Hlocs & Hnext & Hheap).
    repeat split.
    + rewrite Htext, Hheap by lia. rewrite fn_lookup_insert. now destruct o.
    + now rewrite Hlocs.
    + lia.
    + intros l Hl. rewrite Hheap by lia. apply fn_lookup_insert_ne. lia.
Qed.

(** X14. The queue survives a reload: a new instance reads back, from
    what [saveSyncQueue] wrote, the same operations in the same order,
    each with the content its document had when the queue was written.
    Every operation then has a document object of its own, a new one,
    also where two operations shared one before; and the instance
    starts not connected and without a sha. *)
Theorem queue_survives_reload st :
  let st' := constructor (saveSyncQueue st) in
  queueText st' = queueText st /\
  NoDup (map op_data (syncQueue st')) /\
  Forall (fun o => (next st <= op_data o)%nat) (syncQueue st') /\
  (forall l, (l < next st)%nat -> heap st' l = heap st l) /\
  isConnected st' = false /\ currentSHA st' = None.
Proof.
  unfold constructor, loadSyncQueue, queueText. cbn.
  match goal with |- context [parseQueue ?text ?s] =>
    pose proof (parseQueue_spec text s) as H; destruct (parseQueue text s) as [q st2] end.
  cbn in H |- *. destruct H as (Htext & Hlocs & Hnext & Hheap).
  split; [exact Htext|]. split; [rewrite Hlocs; apply NoDup_seq|].
  split; [|auto].
  apply Forall_forall. intros o Ho.
  assert (Hin : op_data o ∈ seq (next st) (length (syncQueue st))).
  { rewrite length_map in Hlocs. rewrite <- Hlocs. now apply list_elem_of_fmap_2. }
  apply elem_of_seq in Hin. lia.
Qed.

(** X15. A successful load: the value fetched is returned and kept in
    the local store, the sha of the file is taken, no message is shown;
    and a later load that cannot use the network returns the same
    value. *)
Theorem fetched_value_is_cached st status statusText body value rest :
  offline st = false ->
  net st = Http status statusText body :: rest ->
  ok status = true ->
  body_content body = Encoded value ->
  let st' := snd (fetchData st) in
  fst (fetchData st) = value /\
  tracker_data (storage st') = Some value /\
  currentSHA st' = Some (body_sha body) /\
  sent st' = sent st ++ [GET] /\
  toasts st' = toasts st /\
  syncQueue st' = syncQueue st /\
  fst (fetchData (set_isConnected false st')) = value.
Proof.
  unfold offline. intros Hoff Hnet Hok Hcontent.
  assert (H404 : (status =? 404) = false) by (unfold ok in Hok; lia).
  assert (Hfetch : fetchData st
                   = (value,
                      saveLocalData value
                        (set_currentSHA (Some (body_sha body))
                           (set_net rest (set_sent (sent st ++ [GET]) st))))).
  { unfold fetchData. rewrite Hoff. unfold fetch. cbn.
    now rewrite Hnet, H404, Hok, Hcontent. }
  rewrite Hfetch. cbn. repeat split.
  unfold fetchData. cbn. rewrite orb_true_r. reflexivity.
Qed.

Lemma fetched_value_is_cached_witness :
  fst (fetchData (Samples.connected [Samples.file "sha9" Samples.remoteDoc]))
  = Doc Samples.remoteDoc
  /\ currentSHA (snd (fetchData (Samples.connected [Samples.file "sha9" Samples.remoteDoc])))
     = Some "sha9".
Proof.
  destruct (fetched_value_is_cached
              (Samples.connected [Samples.file "sha9" Samples.remoteDoc])
              200 "OK" (mkBody "" "sha9" (Encoded (Doc Samples.remoteDoc)) "" Samples.noOwner)
              (Doc Samples.remoteDoc) [] eq_refl eq_refl eq_refl eq_refl)
    as (Hv & _ & Hsha & _).
  split; assumption.
Defined.

(** X16. When the data file does not exist yet: the load returns the
    seed document, shows no error, takes no sha and leaves the local
    store as it is; the first accepted save then carries no sha, which
    creates the file. *)
Theorem missing_file_then_first_save st statusText body s2 t2 b2 rest data commitMessage :
  offline st = false ->
  currentSHA st = None ->
  net st = Http 404 statusText body :: Http s2 t2 b2 :: rest ->
  ok s2 = true ->
  let st1 := snd (fetchData st) in
  (exists seed,
     fst (fetchData st) = Doc seed /\ version seed = "1.0.0" /\
     length (users seed) = 7%nat /\
     tasks seed = [] /\ requests seed = [] /\ history seed = []) /\
  toasts st1 = toasts st /\ indicator st1 = indicator st /\
  storage st1 = storage st /\
  exists st2,
    commitData 1 data commitMessage st1 = Some (Committed (body_commit b2), st2) /\
    map requestSha (sent st2) = map requestSha (sent st) ++ [None; None] /\
    map method (sent st2) = map method (sent st) ++ ["GET"; "PUT"] /\
    currentSHA st2 = Some (body_sha b2).
Proof.
  unfold offline. intros Hoff Hsha Hnet Hok.
  set (s1 := set_clock (clock st + 1)
               (set_net (Http s2 t2 b2 :: rest) (set_sent (sent st ++ [GET]) st))).
  assert (Hfetch : exists seed,
            fetchData st = (Doc seed, s1) /\ version seed = "1.0.0" /\
            length (users seed) = 7%nat /\
            tasks seed = [] /\ requests seed = [] /\ history seed = []).
  { unfold fetchData. rewrite Hoff. unfold fetch. cbn. rewrite Hnet. cbn.
    eexists. split; [reflexivity|]. repeat split. }
  destruct Hfetch as (seed & Hfetch & Hseed). rewrite Hfetch. cbn [fst snd].
  split; [now exists seed|]. repeat split.
  destruct (commitData_success_full 0 s1 data commitMessage s2 t2 b2 rest)
    as (st2 & Hrun & Hsent & _ & Hsha2 & _); [exact Hoff|reflexivity|exact Hok|].
  exists st2. split; [exact Hrun|]. cbn in Hsent. rewrite Hsent, Hsha, !map_app.
  cbn. rewrite <- !app_assoc. repeat split. assumption.
Qed.

Lemma missing_file_then_first_save_witness :
  exists st2,
    commitData 1 0%nat "Initial demo data loaded"
      (snd (fetchData (set_currentSHA None
                         (Samples.connected [Samples.refused 404 "Not Found" "Not Found";
                                             Samples.committed "sha1"]))))
    = Some (Committed "commit of sha1", st2) /\
    map requestSha (sent st2) = [None; None] /\
    map method (sent st2) = ["GET"; "PUT"] /\
    currentSHA st2 = Some "sha1".
Proof.
  destruct (missing_file_then_first_save
              (set_currentSHA None
                 (Samples.connected [Samples.refused 404 "Not Found" "Not Found";
                                     Samples.committed "sha1"]))
              "Not Found" (mkBody "Not Found" "" (Garbled "") "" Samples.noOwner)
              200 "OK" (mkBody "" "sha1" (Garbled "") "commit of sha1" Samples.noOwner) []
              0%nat "Initial demo data loaded" eq_refl eq_refl eq_refl eq_refl)
    as (_ & _ & _ & _ & H).
  exact H.
Defined.

(** X17. A load that fails, by a rejected request, an error status
    other than 404, or content that does not decode or parse, returns
    what the local store holds and leaves it there, shows one message
    and sets the indicator to error. *)
Theorem failed_load_falls_back st stored :
  offline st = false ->
  tracker_data (storage st) = Some stored ->
  readable (hd (Rejected "Failed to fetch") (net st)) = false ->
  let st' := snd (fetchData st) in
  fst (fetchData st) = stored /\
  tracker_data (storage st') = Some stored /\
  indicator st' = ErrorMode /\
  (exists message, toasts st' = toasts st ++ [message]) /\
  syncQueue st' = syncQueue st.
Proof.
  unfold offline. intros Hoff Hstored Hread.
  assert (Hfail : forall error s,
            storage s = storage st -> toasts s = toasts st -> syncQueue s = syncQueue st ->
            let st' := snd (loadLocalData (handleError error s)) in
            fst (loadLocalData (handleError error s)) = stored /\
            tracker_data (storage st') = Some stored /\
            indicator st' = ErrorMode /\
            (exists message, toasts st' = toasts st ++ [message]) /\
            syncQueue st' = syncQueue st).
  { intros error s Hs Ht Hq.
    pose proof (handleError_frame error s) as Hf. cbn in Hf.
    destruct Hf as (_ & Hq' & _ & Hs' & _ & _ & _ & _ & _ & Hi).
    destruct (handleError_effect error s) as [_ [message Hm]].
    unfold loadLocalData. rewrite Hs', Hs, Hstored. cbn.
    rewrite Hs', Hs, Hi, Hq', Hq, Hm, Ht. eauto 10. }
  unfold fetchData. rewrite Hoff. unfold fetch. cbn.
  destruct (net st) as [|[error|status statusText body] rest]; cbn in Hread |- *.
  - now apply Hfail.
  - now apply Hfail.
  - apply orb_false_iff in Hread. destruct Hread as [H404 Hread]. rewrite H404.
    destruct (ok status); cbn in Hread |- *; [|now apply Hfail].
    destruct (body_content body); [now apply Hfail|discriminate].
Qed.

Lemma failed_load_falls_back_witness :
  fst (fetchData (saveLocalData (Doc Samples.localDoc)
                    (Samples.connected [Samples.refused 500 "Internal Server Error" "boom"])))
  = Doc Samples.localDoc.
Proof.
  destruct (failed_load_falls_back
              (saveLocalData (Doc Samples.localDoc)
                 (Samples.connected [Samples.refused 500 "Internal Server Error" "boom"]))
              (Doc Samples.localDoc) eq_refl eq_refl eq_refl) as (H & _).
  exact H.
Defined.


(** X18. With a token, an owner and a repository configured,
    [initialize] sends one probe, and both its result and the connected
    flag afterwards say whether the probe was answered with a 2xx
    status and a body of which the owner's login can be read; if it
    was not, the indicator shows the error and one message is shown. *)
Theorem initialize_follows_probe st :
  noToken (getToken st) = false ->
  nonempty (owner (config st)) = true -> nonempty (repo (config st)) = true ->
  let answer := probeOk (hd (Rejected "Failed to fetch") (net st)) in
  let st' := snd (initialize st) in
  fst (initialize st) = answer /\
  isConnected st' = answer /\
  sent st' = sent st ++ [PROBE] /\
  (answer = false ->
   indicator st' = ErrorMode /\ exists message, toasts st' = toasts st ++ [message]) /\
  (answer = true -> toasts st' = toasts st /\ indicator st' = indicator st).
Proof.
  intros Htoken Howner Hrepo. cbn zeta.
  assert (Hfail : forall error s,
            isConnected s = false -> sent s = sent st ++ [PROBE] ->
            toasts s = toasts st ->
            isConnected (handleError error s) = false /\
            sent (handleError error s) = sent st ++ [PROBE] /\
            indicator (handleError error s) = ErrorMode /\
            exists message, toasts (handleError error s) = toasts st ++ [message]).
  { intros error s Hc Hs Ht. pose proof (handleError_frame error s) as Hf. cbn in Hf.
    destruct Hf as (_ & _ & _ & _ & _ & _ & _ & _ & Hs' & Hi).
    destruct (handleError_effect error s) as [Hc' [message Hm]].
    rewrite Hc', Hc, Hs', Hs, Hi, Hm, Ht. eauto. }
  unfold initialize, testConnection, fetch. rewrite Htoken, Howner, Hrepo. cbn.
  destruct (net st) as [|[error|status statusText body] rest]; cbn.
  - destruct (Hfail "Failed to fetch"
                (set_isConnected false (set_sent (sent st ++ [PROBE]) st)))
      as (H1 & H2 & H3 & H4); [reflexivity..|]. repeat split; auto; discriminate.
  - destruct (Hfail error
                (set_isConnected false
                   (set_net rest (set_sent (sent st ++ [PROBE]) st))))
      as (H1 & H2 & H3 & H4); [reflexivity..|]. repeat split; auto; discriminate.
  - destruct (ok status); cbn.
    + destruct (body_owner body) as [error|login]; cbn.
      * destruct (Hfail error
                    (set_isConnected false
                       (set_isConnected true
                          (set_net rest (set_sent (sent st ++ [PROBE]) st)))))
          as (H1 & H2 & H3 & H4); [reflexivity..|]. repeat split; auto; discriminate.
      * repeat split; auto; discriminate.
    + destruct (Hfail ("GitHub API error: " ++ pretty status ++ " " ++ statusText)%string
                  (set_isConnected false
                     (set_net rest (set_sent (sent st ++ [PROBE]) st))))
        as (H1 & H2 & H3 & H4); [reflexivity..|]. repeat split; auto; discriminate.
Qed.

Lemma initialize_follows_probe_witness :
  fst (initialize (Samples.connected [Samples.repository "acme"])) = true
  /\ fst (initialize (Samples.connected [Samples.committed "sha1"])) = false
  /\ isConnected (snd (initialize (Samples.connected [Samples.committed "sha1"]))) = false.
Proof.
  destruct (initialize_follows_probe (Samples.connected [Samples.repository "acme"])
              eq_refl eq_refl eq_refl) as (H & _).
  destruct (initialize_follows_probe (Samples.connected [Samples.committed "sha1"])
              eq_refl eq_refl eq_refl) as (H1 & H2 & _).
  repeat split; assumption.
Defined.

(** X19. With a token but no owner or no repository, [initialize]
    returns false without sending anything; it shows the message of the
    incomplete configuration and sets the indicator to error, and the
    connected flag stays what it was. *)
Theorem initialize_incomplete st :
  noToken (getToken st) = false ->
  nonempty (owner (config st)) && nonempty (repo (config st)) = false ->
  let st' := snd (initialize st) in
  fst (initialize st) = false /\
  sent st' = sent st /\ net st' = net st /\
  isConnected st' = isConnected st /\
  indicator st' = ErrorMode /\
  toasts st'
  = toasts st
    ++ ["GitHub sync failed: GitHub configuration incomplete. Changes saved locally."].
Proof.
  intros Htoken Hconfig. cbn zeta.
  assert (Hinit : initialize st
                  = (false, handleError "GitHub configuration incomplete" st)).
  { unfold initialize, testConnection. rewrite Htoken. cbn [orb].
    apply andb_false_iff in Hconfig.
    destruct Hconfig as [-> | ->]; cbn; [reflexivity|].
    now rewrite orb_true_r. }
  rewrite Hinit. cbn [fst snd]. unfold handleError. cbn. repeat split.
Qed.

Lemma initialize_incomplete_witness :
  fst (initialize (set_config (mkConfig "" "tracker" "main" "data/db.json" (lit "ghp_x"))
                     (Samples.connected []))) = false
  /\ isConnected (snd (initialize
                         (set_config (mkConfig "" "tracker" "main" "data/db.json"
                                        (lit "ghp_x"))
                            (Samples.connected [])))) = true.
Proof.
  destruct (initialize_incomplete
              (set_config (mkConfig "" "tracker" "main" "data/db.json" (lit "ghp_x"))
                 (Samples.connected [])) eq_refl eq_refl) as (H1 & _ & _ & H2 & _).
  split; assumption.
Defined.

Lemma includes_status_401 statusText :
  includes ("GitHub API error: " ++ pretty 401 ++ " " ++ statusText)%string "401" = true.
Proof. apply (includes_append "GitHub API error: " "401" (" " ++ statusText)). Qed.

(** X20. A load answered with 401 disconnects the client: the load
    falls back to the local data, returning what [loadLocalData]
    returns, the stored value where there is one, and leaving the
    store as it is; and a save after it sends nothing, queues the
    operation and keeps the document locally. *)
Theorem unauthorized_load_blocks_saves fuel st statusText body rest data commitMessage :
  offline st = false ->
  net st = Http 401 statusText body :: rest ->
  let st1 := snd (fetchData st) in
  fst (fetchData st) = fst (loadLocalData st) /\
  (forall stored, tracker_data (storage st) = Some stored -> fst (fetchData st) = stored) /\
  storage st1 = storage st /\
  isConnected st1 = false /\
  indicator st1 = ErrorMode /\
  toasts st1 = toasts st ++ ["Invalid GitHub token. Please reconfigure in Settings."] /\
  exists st2,
    commitData (S fuel) data commitMessage st1 = Some (Queued None, st2) /\
    sent st2 = sent st ++ [GET] /\
    net st2 = rest /\
    map (fun o => (op_data o, op_message o)) (syncQueue st2)
    = map (fun o => (op_data o, op_message o)) (syncQueue st) ++ [(data, commitMessage)] /\
    tracker_data (storage st2) = Some (Doc (heap st data)).
Proof.
  unfold offline. intros Hoff Hnet.
  set (s0 := set_net rest (set_sent (sent st ++ [GET]) st)).
  assert (Hfetch : fetchData st
                   = loadLocalData
                       (updateConnectionStatus ErrorMode
                          (set_isConnected false
                             (showError
                                "Invalid GitHub token. Please reconfigure in Settings."
                                s0)))).
  { unfold fetchData. rewrite Hoff. unfold fetch. cbn. rewrite Hnet. cbn.
    now rewrite handleError_invalid_token by (reflexivity || apply includes_status_401). }
  set (s1 := updateConnectionStatus ErrorMode _) in Hfetch.
  pose proof (loadLocalData_frame s1) as Hf. cbn zeta in Hf. rewrite <- Hfetch in Hf.
  destruct Hf as (Hc & Hq & Hi & Hs & Hh & _ & Hn & Hsent & Ht).
  cbn zeta.
  assert (Hvalue : fst (fetchData st) = fst (loadLocalData st)).
  { rewrite Hfetch. unfold loadLocalData. cbn.
    destruct (tracker_data (storage st)); reflexivity. }
  split; [exact Hvalue|]. split.
  { intros stored Hstored. rewrite Hvalue. unfold loadLocalData. now rewrite Hstored. }
  split; [now rewrite Hs|].
  split; [now rewrite Hi|]. split.
  { rewrite Hfetch. unfold loadLocalData.
    destruct (tracker_data (storage s1)); reflexivity. }
  split; [now rewrite Ht|].
  assert (Hoff1 : offline (snd (fetchData st)) = true).
  { unfold offline. rewrite Hi. cbn. apply orb_true_r. }
  rewrite commitData_offline by assumption.
  eexists. split; [reflexivity|]. cbn.
  rewrite Hsent, Hn, Hq, Hh, map_app. cbn. repeat split.
Qed.

Lemma unauthorized_load_blocks_saves_witness :
  fst (fetchData (saveLocalData (Doc Samples.localDoc)
                    (Samples.connected
                       [Samples.refused 401 "Unauthorized" "Bad credentials";
                        Samples.committed "sha1"])))
  = Doc Samples.localDoc /\
  exists st2,
    commitData 1 0%nat "Edit task"
      (snd (fetchData (saveLocalData (Doc Samples.localDoc)
                         (Samples.connected
                            [Samples.refused 401 "Unauthorized" "Bad credentials";
                             Samples.committed "sha1"]))))
    = Some (Queued None, st2) /\
    sent st2 = [GET] /\ net st2 = [Samples.committed "sha1"].
Proof.
  destruct (unauthorized_load_blocks_saves 0
              (saveLocalData (Doc Samples.localDoc)
                 (Samples.connected [Samples.refused 401 "Unauthorized" "Bad credentials";
                                     Samples.committed "sha1"]))
              "Unauthorized" (mkBody "Bad credentials" "" (Garbled "") "" Samples.noOwner)
              [Samples.committed "sha1"] 0%nat "Edit task" eq_refl eq_refl)
    as (_ & Hvalue & _ & _ & _ & _ & st2 & Hrun & Hsent & Hnet & _).
  split; [exact (Hvalue (Doc Samples.localDoc) eq_refl)|].
  exists st2. repeat split; assumption.
Defined.

Lemma offline_alloc d st : offline (snd (alloc d st)) = offline st.
Proof. reflexivity. Qed.

(** X21. A backup that lacks one of the five fields, or whose version
    is the empty string, is rejected with "Invalid data structure";
    the client is left as it was: nothing is sent, stored or queued. *)
Theorem import_rejects_incomplete_backup data currentUser fuel st :
  backup_version data = None \/ backup_version data = Some "" \/
  backup_users data = None \/ backup_tasks data = None \/
  backup_requests data = None \/ backup_history data = None ->
  importData (Json data) currentUser fuel st = Some (inl "Invalid data structure", st).
Proof.
  intros H. unfold importData.
  assert (Hv : validated data = None).
  { unfold validated.
    destruct (backup_version data) as [v|], (backup_users data), (backup_tasks data),
      (backup_requests data), (backup_history data);
      try reflexivity; destruct H as [H|[H|[H|[H|[H|H]]]]]; try discriminate.
    injection H as ->. reflexivity. }
  now rewrite Hv.
Qed.

Lemma import_rejects_incomplete_backup_witness :
  importData (Json (mkBackup (Some "1.0.0") 7 (Some []) (Some []) None (Some [])))
    (Some "Ann") 1 (Samples.connected [Samples.committed "sha1"])
  = Some (inl "Invalid data structure", Samples.connected [Samples.committed "sha1"]).
Proof.
  apply (import_rejects_incomplete_backup
           (mkBackup (Some "1.0.0") 7 (Some []) (Some []) None (Some []))).
  right; right; right; right; left. reflexivity.
Defined.

(** X22. A complete backup is written over the remote file without
    being merged with anything: the one request carries the backup
    itself, stamped with the time of the import, under the sha the
    client knew, and with the name of the importer in the commit
    message; once the write is accepted the local copy is the backup
    too. Lists that are empty pass the test. *)
Theorem import_overwrites_remote fuel st version stamped users tasks requests history
    currentUser status statusText body rest :
  nonempty version = true ->
  offline st = false ->
  net st = Http status statusText body :: rest ->
  ok status = true ->
  let data := mkBackup (Some version) stamped (Some users) (Some tasks) (Some requests)
                       (Some history) in
  let doc := mkDocument version (clock st) users tasks requests history in
  exists st',
    importData (Json data) currentUser (S fuel) st
    = Some (inr (Committed (body_commit body)), st') /\
    sent st' = sent st ++ [PUT doc ("Data imported from backup by "
                                    ++ importer currentUser)%string
                               (shaField (currentSHA st))] /\
    tracker_data (storage st') = Some (Doc doc) /\
    currentSHA st' = Some (body_sha body) /\
    syncQueue st' = syncQueue st /\
    (forall l, l <> next st -> heap st' l = heap st l).
Proof.
  intros Hversion Hoff Hnet Hok. cbn zeta.
  unfold importData, validated, alloc.
  cbn [backup_version backup_lastUpdated backup_users backup_tasks backup_requests
       backup_history].
  rewrite Hversion.
  set (d := mkDocument version stamped users tasks requests history).
  set (st0 := set_next _ _).
  destruct (commitData_success_full fuel st0 (next st)
              ("Data imported from backup by " ++ importer currentUser)%string
              _ _ _ _ Hoff Hnet Hok)
    as (st' & Hrun & Hsent & _ & Hsha & Hheap & Hloc & Hq & _).
  rewrite Hrun. exists st'.
  assert (Hnew : heap st' (next st) = stamp (clock st) d).
  { rewrite Hheap, fn_lookup_alter. cbn. now rewrite fn_lookup_insert. }
  split; [reflexivity|]. split.
  { rewrite Hsent. cbn. now rewrite fn_lookup_insert. }
  split; [now rewrite Hloc, Hnew|]. split; [assumption|]. split; [assumption|].
  intros l Hl. rewrite Hheap, fn_lookup_alter_ne by congruence.
  cbn. now rewrite fn_lookup_insert_ne by congruence.
Qed.

Lemma import_overwrites_remote_witness :
  exists st',
    importData (Json (mkBackup (Some "1.0.0") 7 (Some []) (Some []) (Some []) (Some [])))
      None 1 (Samples.connected [Samples.committed "sha1"])
    = Some (inr (Committed "commit of sha1"), st') /\
    sent st' = [PUT (mkDocument "1.0.0" 1000 [] [] [] [])
                    "Data imported from backup by Unknown" (Some "sha0")] /\
    tracker_data (storage st') = Some (Doc (mkDocument "1.0.0" 1000 [] [] [] [])).
Proof.
  destruct (import_overwrites_remote 0 (Samples.connected [Samples.committed "sha1"])
              "1.0.0" 7 [] [] [] [] None 200 "OK"
              (mkBody "" "sha1" (Garbled "") "commit of sha1" Samples.noOwner) []
              eq_refl eq_refl eq_refl eq_refl)
    as (st' & Hrun & Hsent & Hloc & _).
  exists st'. repeat split; assumption.
Defined.

(** X23. A complete backup imported while the client cannot write is
    not sent: it replaces the local copy as it is, and one operation
    for it joins the queue. *)
Theorem import_while_offline fuel st version stamped users tasks requests history
    currentUser :
  nonempty version = true ->
  offline st = true ->
  let data := mkBackup (Some version) stamped (Some users) (Some tasks) (Some requests)
                       (Some history) in
  let doc := mkDocument version stamped users tasks requests history in
  exists st',
    importData (Json data) currentUser (S fuel) st = Some (inr (Queued None), st') /\
    sent st' = sent st /\
    tracker_data (storage st') = Some (Doc doc) /\
    exists op,
      syncQueue st' = syncQueue st ++ [op] /\
      heap st' (op_data op) = doc /\
      op_message op = ("Data imported from backup by " ++ importer currentUser)%string.
Proof.
  intros Hversion Hoff. cbn zeta.
  unfold importData, validated, alloc.
  cbn [backup_version backup_lastUpdated backup_users backup_tasks backup_requests
       backup_history].
  rewrite Hversion.
  set (d := mkDocument version stamped users tasks requests history).
  set (st0 := set_next _ _).
  rewrite commitData_offline by exact Hoff.
  eexists. split; [reflexivity|]. cbn. rewrite fn_lookup_insert.
  split; [reflexivity|]. split; [reflexivity|].
  eexists. split; [reflexivity|]. cbn. now rewrite fn_lookup_insert.
Qed.

Lemma import_while_offline_witness :
  exists st',
    importData (Json (mkBackup (Some "1.0.0") 7 (Some []) (Some []) (Some []) (Some [])))
      (Some "Ann") 1 (set_isConnected false (Samples.connected []))
    = Some (inr (Queued None), st') /\
    sent st' = [] /\
    tracker_data (storage st') = Some (Doc (mkDocument "1.0.0" 7 [] [] [] [])).
Proof.
  destruct (import_while_offline 0 (set_isConnected false (Samples.connected []))
              "1.0.0" 7 [] [] [] [] (Some "Ann") eq_refl eq_refl)
    as (st' & Hrun & Hsent & Hloc & _).
  exists st'. repeat split; assumption.
Defined.



(** *** The stored token *)

Lemma b64char_isByte v : isSextet v -> isByte (b64char v).
Proof. unfold isSextet, isByte, b64char. intros Hv. repeat case_if; lia. Qed.

Lemma encodeGroups_isByte bytes :
  Forall isByte bytes -> Forall isByte (encodeGroups bytes).
Proof.
  intros Hb. rewrite encodeGroups_split. apply Forall_app. split.
  - apply Forall_map. eapply Forall_impl; [apply encodeValues_sextets, Hb|].
    intros v Hv. now apply b64char_isByte.
  - destruct (encodePadding_cases bytes) as [E|[E|E]]; rewrite E;
      repeat constructor; unfold isByte; lia.
Qed.

Lemma encodeGroups_longer bytes :
  bytes <> [] -> (length bytes < length (encodeGroups bytes))%nat.
Proof.
  induction bytes as [| | |a b c l IH] using list_ind3; intros Hne; cbn; try lia.
  - congruence.
  - destruct l as [|d l]; [cbn; lia|].
    assert (d :: l <> []) by discriminate. specialize (IH H). cbn in *. lia.
Qed.

(** A token held in base64 is read decoded. *)
Lemma getToken_encoded st x :
  token (config st) = encodeGroups x -> x <> [] -> Forall isByte x ->
  getToken st = Some x.
Proof.
  intros Hcfg Hne Hb. unfold getToken. rewrite Hcfg.
  assert (Ht : truthy (encodeGroups x) = true).
  { pose proof (encodeGroups_longer x Hne) as Hl.
    destruct (encodeGroups x); [cbn in Hl; lia|reflexivity]. }
  rewrite Ht. cbn [negb].
  assert (Hpre : forall p, In 95 p -> startsWith (encodeGroups x) p = false).
  { intros p Hp. destruct (startsWith (encodeGroups x) p) eqn:E; [|reflexivity].
    exfalso. eapply encodeGroups_no_underscore; [eassumption|].
    eapply startsWith_In; eassumption. }
  rewrite !Hpre by (cbn; tauto). cbn [orb].
  now rewrite atob_encodeGroups.
Qed.

Lemma truthy_nonempty (t : jsstring) : t <> [] -> truthy t = true.
Proof. destruct t; [congruence|reflexivity]. Qed.

(** X25. A token of code units below 256, saved with any other
    settings, is stored in base64 and read back by the next instance
    as it was given. *)
Theorem token_survives_reload p t page :
  new_token p = Some t -> t <> [] -> Forall isByte t ->
  fst (saveConfig p page) = Returned /\
  option_map token (github_config (storage (snd (saveConfig p page))))
  = Some (encodeGroups t) /\
  getToken (constructor (snd (saveConfig p page))) = Some t.
Proof.
  intros Hp Hne Hb.
  assert (Hsave : saveConfig p page
                  = (Returned,
                     let st := set_config (spread (config page) p) page in
                     set_storage
                       (mkStorage (Some (mkConfig (owner (config st)) (repo (config st))
                                           (branch (config st)) (dataFile (config st))
                                           (encodeGroups t)))
                          (sync_queue (storage st)) (tracker_data (storage st))) st)).
  { unfold saveConfig. cbn. rewrite Hp. cbn.
    now rewrite truthy_nonempty, btoa_bytes by assumption. }
  rewrite Hsave. cbn [fst snd]. split; [reflexivity|]. split; [reflexivity|].
  apply getToken_encoded; try assumption.
  match goal with |- token (config (constructor ?st)) = _ =>
    destruct (constructor_frame st) as (Hc & _); rewrite Hc end.
  reflexivity.
Qed.

Lemma token_survives_reload_witness :
  getToken (constructor (snd (saveConfig (Samples.tokenOnly (lit "ghp_secret"))
                                Samples.freshPage)))
  = Some (lit "ghp_secret").
Proof.
  assert (Hne : lit "ghp_secret" <> []) by discriminate.
  assert (Hb : Forall isByte (lit "ghp_secret"))
    by (repeat constructor; unfold isByte; lia).
  exact (proj2 (proj2 (token_survives_reload (Samples.tokenOnly (lit "ghp_secret"))
                         (lit "ghp_secret") Samples.freshPage eq_refl Hne Hb))).
Defined.

(** X26. An instance created from a stored configuration holds the
    token in base64, and a later save that does not give the token
    encodes that text once more: the instance after the next reload
    reads the base64 text of the token in place of the token. *)
Theorem later_save_encodes_stored_token_again p t page :
  new_token p = None ->
  option_map token (github_config (storage page)) = Some (encodeGroups t) ->
  t <> [] -> Forall isByte t ->
  let st := constructor page in
  let st' := snd (saveConfig p st) in
  getToken st = Some t /\
  fst (saveConfig p st) = Returned /\
  getToken st' = Some t /\
  option_map token (github_config (storage st'))
  = Some (encodeGroups (encodeGroups t)) /\
  getToken (constructor st') = Some (encodeGroups t) /\
  encodeGroups t <> t.
Proof.
  intros Hp Hstored Hne Hb. cbn zeta.
  destruct (constructor_frame page) as (Hcfg & _).
  assert (Htoken : token (config (constructor page)) = encodeGroups t).
  { rewrite Hcfg. unfold loadConfig.
    destruct (github_config (storage page)); cbn in *; congruence. }
  assert (Hne' : encodeGroups t <> []).
  { pose proof (encodeGroups_longer t Hne) as Hl.
    destruct (encodeGroups t); [cbn in Hl; lia|discriminate]. }
  set (st := constructor page) in *.
  assert (Hsave : saveConfig p st
                  = (Returned,
                     let st0 := set_config (spread (config st) p) st in
                     set_storage
                       (mkStorage (Some (mkConfig (owner (config st0)) (repo (config st0))
                                           (branch (config st0)) (dataFile (config st0))
                                           (encodeGroups (encodeGroups t))))
                          (sync_queue (storage st0)) (tracker_data (storage st0))) st0)).
  { unfold saveConfig. cbn. rewrite Hp. cbn. rewrite Htoken.
    now rewrite truthy_nonempty, btoa_bytes by (assumption || now apply encodeGroups_isByte). }
  rewrite Hsave. cbn [fst snd].
  split; [now apply getToken_encoded|]. split; [reflexivity|].
  split; [apply getToken_encoded; try assumption; cbn; now rewrite Hp|].
  split; [reflexivity|]. split.
  - apply getToken_encoded; [|assumption|now apply encodeGroups_isByte].
    match goal with |- token (config (constructor ?s)) = _ =>
      destruct (constructor_frame s) as (Hc & _); rewrite Hc end.
    reflexivity.
  - intros E. pose proof (encodeGroups_longer t Hne) as Hl. rewrite E in Hl. lia.
Qed.

Lemma later_save_encodes_stored_token_again_witness :
  let st := constructor (snd (saveConfig (Samples.tokenOnly (lit "ghp_x"))
                                Samples.freshPage)) in
  getToken st = Some (lit "ghp_x") /\
  getToken (constructor (snd (saveConfig (branchOnly "dev") st))) = Some (lit "Z2hwX3g=").
Proof.
  assert (Hne : lit "ghp_x" <> []) by discriminate.
  assert (Hb : Forall isByte (lit "ghp_x")) by (repeat constructor; unfold isByte; lia).
  destruct (later_save_encodes_stored_token_again (branchOnly "dev") (lit "ghp_x")
              (snd (saveConfig (Samples.tokenOnly (lit "ghp_x")) Samples.freshPage))
              eq_refl eq_refl Hne Hb) as (H1 & _ & _ & _ & H2 & _).
  split; assumption.
Defined.

Lemma btoa_wide c (t : jsstring) : In c t -> 255 < c -> btoa t = None.
Proof.
  intros Hin Hc. unfold btoa.
  destruct (forallb _ t) eqn:E; [|reflexivity].
  rewrite forallb_forall in E. specialize (E c Hin). lia.
Qed.

(** X27. Saving a token with a code unit above 255 throws: the
    instance has taken the new settings by then, and nothing is
    written, so the store keeps what it held. *)
Theorem wide_token_is_not_stored p t c st :
  new_token p = Some t -> In c t -> 255 < c ->
  fst (saveConfig p st) = Threw "InvalidCharacterError" /\
  config (snd (saveConfig p st)) = spread (config st) p /\
  token (config (snd (saveConfig p st))) = t /\
  storage (snd (saveConfig p st)) = storage st.
Proof.
  intros Hp Hin Hc.
  assert (Hsave : saveConfig p st
                  = (Threw "InvalidCharacterError",
                     set_config (spread (config st) p) st)).
  { unfold saveConfig. cbn. rewrite Hp. cbn.
    rewrite truthy_nonempty by (intros ->; destruct Hin).
    now rewrite (btoa_wide c t). }
  rewrite Hsave. cbn. now rewrite Hp.
Qed.

Lemma wide_token_is_not_stored_witness :
  fst (saveConfig (Samples.tokenOnly [103; 8364]) Samples.freshPage)
  = Threw "InvalidCharacterError" /\
  storage (snd (saveConfig (Samples.tokenOnly [103; 8364]) Samples.freshPage))
  = storage Samples.freshPage.
Proof.
  assert (Hin : In 8364 [103; 8364]) by (cbn; tauto).
  assert (Hc : 255 < 8364) by lia.
  destruct (wide_token_is_not_stored (Samples.tokenOnly [103; 8364]) [103; 8364] 8364
              Samples.freshPage eq_refl Hin Hc) as (H1 & _ & _ & H2).
  split; assumption.
Defined.

(** X28. A token with a character that base64 text cannot hold is
    returned as it is held, with or without one of the two prefixes. *)
Theorem getToken_keeps_foreign_token st c :
  In c (token (config st)) -> foreignChar c = true ->
  getToken st = Some (token (config st)).
Proof.
  intros Hin Hc. unfold getToken.
  rewrite truthy_nonempty by (intros E; rewrite E in Hin; destruct Hin).
  cbn [negb]. rewrite (atob_foreign c) by assumption.
  now destruct (startsWith _ _ || startsWith _ _).
Qed.

Lemma getToken_keeps_foreign_token_witness :
  getToken (set_config (mkConfig "o" "r" "main" "data/db.json" (lit "my-token"))
              Samples.freshPage)
  = Some (lit "my-token").
Proof.
  apply (getToken_keeps_foreign_token
           (set_config (mkConfig "o" "r" "main" "data/db.json" (lit "my-token"))
              Samples.freshPage) 45).
  - cbn. tauto.
  - reflexivity.
Defined.

(** X29. The [offline] event shows its message and the local
    indicator but leaves the client connected: the next save is still
    sent, and it is its failure that queues the operation. *)
Theorem offline_event_keeps_sending fuel st data commitMessage error rest :
  offline st = false ->
  net st = Rejected error :: rest ->
  String.eqb error "CONFLICT" = false ->
  indicator (onOffline st) = LocalMode /\
  isConnected (onOffline st) = isConnected st /\
  exists st' message,
    commitData (S fuel) data commitMessage (onOffline st)
    = Some (Queued (Some error), st') /\
    sent st' = sent st ++ [PUT (stamp (clock st) (heap st data)) commitMessage
                               (shaField (currentSHA st))] /\
    indicator st' = ErrorMode /\
    toasts st'
    = toasts st ++ ["You are offline. Changes will sync when connection returns."; message].
Proof.
  intros Hoff Hnet Herr. split; [reflexivity|]. split; [reflexivity|].
  set (s0 := onOffline st).
  assert (Hoff0 : offline s0 = false) by (rewrite (offline_same s0 st); auto).
  assert (Hput : putOutcome (fst (putData data commitMessage s0)) = inr error).
  { rewrite putData_eq. cbn. now rewrite Hnet. }
  erewrite commitData_failure by eassumption.
  set (s1 := snd (putData data commitMessage s0)).
  assert (H1 : sent s1 = sent st ++ [PUT (stamp (clock st) (heap st data)) commitMessage
                                         (shaField (currentSHA st))]
               /\ toasts s1
                  = toasts st
                    ++ ["You are offline. Changes will sync when connection returns."]).
  { subst s1. rewrite putData_eq. cbn. auto. }
  destruct H1 as [Hs1 Ht1].
  pose proof (handleError_frame error s1) as Hf. cbn in Hf.
  destruct Hf as (_ & _ & _ & _ & _ & _ & _ & _ & Hs & Hi).
  destruct (handleError_effect error s1) as [_ [message Ht]].
  eexists _, message. split; [reflexivity|]. cbn.
  rewrite Hs, Hi, Ht, Hs1, Ht1, <- app_assoc. repeat split.
Qed.

Lemma offline_event_keeps_sending_witness :
  exists st' message,
    commitData 1 0%nat "Edit task" (onOffline (Samples.connected [Rejected "Failed to fetch"]))
    = Some (Queued (Some "Failed to fetch"), st') /\
    sent st' = [PUT (stamp 1000 Samples.localDoc) "Edit task" (Some "sha0")] /\
    indicator st' = ErrorMode /\
    toasts st' = ["You are offline. Changes will sync when connection returns."; message].
Proof.
  exact (proj2 (proj2 (offline_event_keeps_sending 0
                         (Samples.connected [Rejected "Failed to fetch"]) 0%nat "Edit task"
                         "Failed to fetch" [] eq_refl eq_refl eq_refl))).
Defined.

End EngineMore.
